(** * starpc: the per-call runtime of the streaming RPC framework

    A shallow embedding of the call state machines of starpc and of the
    nested stream tunnel, with the properties of the specification proved
    (or refuted) on it.

    - [goerr]     Go [error] values and their texts.
    - [srpc]      [srpc/server-rpc.go], [srpc/msg-stream.go], [srpc/message.go].
    - [commonrpc] the TypeScript [CommonRPC] class (common-rpc.ts).
    - [rpcstream] the tunnel: [OpenRpcStream], [HandleRpcStream] and the
                  [RpcStreamReadWriter].

    Objects that the code reaches only through an interface ([Writer], [Mux],
    [MsgStreamRw], [Message], [RpcStream]) are type classes or function
    arguments; calls whose results the code throws away are recorded in an
    event log so that their number and order can be stated. *)

From stdpp Require Import base list strings.
From Stdlib Require Import Strings.Byte Strings.Ascii.

Open Scope string_scope.
Open Scope list_scope.

(** A Go [[]byte]; every test the code makes on a slice is [len(s) == 0], so a
    nil slice and an empty slice are both the empty list. *)
Definition bytes : Type := list byte.

(** [x == nil] for a pointer, an interface or a func value. *)
Definition is_nil {A : Type} (x : option A) : bool :=
  match x with
  | None => true
  | Some _ => false
  end.

(** The builtin [copy(dst, src)]: the new content of [dst] and the number of
    bytes copied. *)
Definition go_copy (dst src : bytes) : bytes * nat :=
  (take (length dst) src ++ drop (length src) dst,
   Nat.min (length dst) (length src)).

(** What a call of a Go function can do: return, wait on a channel forever
    unless another goroutine acts, or panic. *)
Inductive outcome (A : Type) : Type :=
| Returns (a : A)
| Blocks
| Panics (msg : string).
Arguments Returns {A} a.
Arguments Blocks {A}.
Arguments Panics {A} msg.

(* ================================================================== *)
(** ** Go errors *)

Module goerr.

(** The error values the sources build or pass on. [ErrUnimplemented],
    [ErrCompleted] and [ErrUnrecognizedPacket] are package-level sentinels of
    srpc whose declarations are in [errors.go]. *)
Inductive error : Type :=
| ErrUnimplemented
| ErrCompleted
| ErrUnrecognizedPacket
| context_Canceled
| io_EOF
| errors_New (msg : string)
| errors_Wrap (cause : error) (msg : string).

#[export] Instance error_eq_dec : EqDecision error.
Proof. solve_decision. Defined.

(** The message texts of the three sentinels of package srpc. *)
Class SentinelText : Type := {
  ErrUnimplemented_text : string;
  ErrCompleted_text : string;
  ErrUnrecognizedPacket_text : string
}.

(** [err.Error()]. *)
Fixpoint error_Error `{SentinelText} (e : error) : string :=
  match e with
  | ErrUnimplemented => ErrUnimplemented_text
  | ErrCompleted => ErrCompleted_text
  | ErrUnrecognizedPacket => ErrUnrecognizedPacket_text
  | context_Canceled => "context canceled"
  | io_EOF => "EOF"
  | errors_New msg => msg
  | errors_Wrap cause msg => msg +:+ ": " +:+ error_Error cause
  end.

(** [errors.Errorf("remote: %s", s)]: the only format string of the sources. *)
Definition errors_Errorf_remote (s : string) : error :=
  errors_New ("remote: " +:+ s).

End goerr.
Export goerr.

(* ================================================================== *)
(** ** Package srpc (Go) *)

Module srpc.

(** *** Wire packets (rpcproto) *)

(** A nil [*CallStart] or [*CallData] answers every getter with the zero
    value, as the zero record does; the handlers only use getters. *)
Record CallStart : Type := mkCallStart {
  RpcService : string;
  RpcMethod : string;
  cs_Data : bytes;
  cs_DataIsZero : bool
}.

Record CallData : Type := mkCallData {
  Data : bytes;
  DataIsZero : bool;
  Complete : bool;
  Error : string
}.

Inductive isPacket_Body : Type :=
| Packet_CallStart (b : CallStart)
| Packet_CallData (b : CallData)
| Packet_CallCancel (b : bool)
| Packet_CallStartResp.

Record Packet : Type := mkPacket { Body : option isPacket_Body }.

(** Modelled from the spec: [NewCallDataPacket] is declared in a file that
    is not part of this development.  Section 4.6: the terminal packet is
    [CallData{ complete=true, error=handlerErr? }]; the error travels as its
    text and is empty when there is none. *)
Definition NewCallDataPacket `{SentinelText}
    (data : bytes) (complete : bool) (err : option error) : Packet :=
  mkPacket (Some (Packet_CallData
    {| Data := data;
       DataIsZero := false;
       Complete := complete;
       Error := match err with Some e => error_Error e | None => "" end |})).

(** *** Buffered channels of byte slices *)

Record chan : Type := mkChan {
  ch_buf : list bytes;
  ch_cap : nat;
  ch_closed : bool
}.

(** [make(chan []byte, n)] *)
Definition make_chan (n : nat) : chan := mkChan [] n false.

(** A send finds room in the buffer. *)
Definition chan_has_room (c : chan) : bool :=
  bool_decide (length (ch_buf c) < ch_cap c).

(** The send case of a [select] is ready: there is room, or the channel is
    closed (the send then panics). *)
Definition chan_send_ready (c : chan) : bool :=
  ch_closed c || chan_has_room c.

(** [c <- v] once the send proceeds. *)
Definition chan_send (c : chan) (v : bytes) : outcome chan :=
  if ch_closed c then Panics "send on closed channel"
  else Returns (mkChan (ch_buf c ++ [v]) (ch_cap c) false).

(** [close(c)] *)
Definition chan_close (c : chan) : outcome chan :=
  if ch_closed c then Panics "close of closed channel"
  else Returns (mkChan (ch_buf c) (ch_cap c) true).

(** *** ServerRPC (server-rpc.go) *)

(** Calls whose effect is outside the ServerRPC: on the [Writer], on the
    context's cancel function, and the [go] statement. *)
Inductive Event : Type :=
| EvWriterMsgSend (pkt : Packet)
| EvWriterClose
| EvCtxCancel
| EvGoInvokeRPC.

Record ServerRPC : Type := mkServerRPC {
  ctxDone : bool;               (* r.ctx is canceled *)
  service : string;
  method : string;
  dataCh : chan;
  dataChClosed : bool;
  clientErr : option error;
  log : list Event              (* oldest first *)
}.

Definition set_start (r : ServerRPC) (m s : string) : ServerRPC :=
  mkServerRPC (ctxDone r) s m (dataCh r) (dataChClosed r) (clientErr r) (log r).
Definition set_dataCh (r : ServerRPC) (c : chan) : ServerRPC :=
  mkServerRPC (ctxDone r) (service r) (method r) c (dataChClosed r) (clientErr r) (log r).
Definition set_dataChClosed (r : ServerRPC) (b : bool) : ServerRPC :=
  mkServerRPC (ctxDone r) (service r) (method r) (dataCh r) b (clientErr r) (log r).
Definition set_clientErr (r : ServerRPC) (e : option error) : ServerRPC :=
  mkServerRPC (ctxDone r) (service r) (method r) (dataCh r) (dataChClosed r) e (log r).
Definition emit (r : ServerRPC) (ev : Event) : ServerRPC :=
  mkServerRPC (ctxDone r) (service r) (method r) (dataCh r) (dataChClosed r)
              (clientErr r) (log r ++ [ev]).

(** [r.ctxCancel()] *)
Definition ctxCancel (r : ServerRPC) : ServerRPC :=
  emit (mkServerRPC true (service r) (method r) (dataCh r) (dataChClosed r)
                    (clientErr r) (log r)) EvCtxCancel.

(** [NewServerRPC(ctx, writer, mux)]; [parentDone] tells whether [ctx] is
    already canceled. *)
Definition NewServerRPC (parentDone : bool) : ServerRPC :=
  {| ctxDone := parentDone;
     service := "";
     method := "";
     dataCh := make_chan 5;
     dataChClosed := false;
     clientErr := None;
     log := [] |}.

(** [HandleCallStart]: the [select] has a [default] case, so it never waits. *)
Definition HandleCallStart (r : ServerRPC) (pkt : CallStart)
  : outcome (option error * ServerRPC) :=
  if negb (bool_decide (method r = "")) || negb (bool_decide (service r = "")) then
    Returns (Some (errors_New "call start must be sent only once"), r)
  else if dataChClosed r then
    Returns (Some ErrCompleted, r)
  else
    let r := set_start r (RpcMethod pkt) (RpcService pkt) in
    let data := cs_Data pkt in
    if negb (bool_decide (length data = 0)) then
      if chan_send_ready (dataCh r) then
        match chan_send (dataCh r) data with
        | Returns c => Returns (None, emit (set_dataCh r c) EvGoInvokeRPC)
        | Blocks => Blocks
        | Panics msg => Panics msg
        end
      else
        Returns (Some (errors_New "data channel was full, expected empty"), r)
    else
      Returns (None, emit r EvGoInvokeRPC).

(** The tail of [HandleCallData], after the payload has been queued. *)
Definition HandleCallData_finish (r : ServerRPC) (pkt : CallData)
  : outcome (option error * ServerRPC) :=
  let complete := Complete pkt in
  let err := Error pkt in
  let '(complete, r) :=
    if negb (bool_decide (String.length err = 0))
    then (true, set_clientErr r (Some (errors_New err)))
    else (complete, r) in
  if complete then
    let r := set_dataChClosed r true in
    match chan_close (dataCh r) with
    | Returns c => Returns (None, set_dataCh r c)
    | Blocks => Blocks
    | Panics msg => Panics msg
    end
  else Returns (None, r).

(** [HandleCallData].  The [select] waits for [r.ctx.Done()] or for the send;
    when both are ready Go picks one at random: [pick_send] is that pick. *)
Definition HandleCallData (r : ServerRPC) (pkt : CallData) (pick_send : bool)
  : outcome (option error * ServerRPC) :=
  if dataChClosed r then Returns (Some ErrCompleted, r)
  else
    let data := Data pkt in
    if negb (bool_decide (length data = 0)) then
      match ctxDone r, chan_send_ready (dataCh r) with
      | false, false => Blocks
      | true, false => Returns (Some context_Canceled, r)
      | done, true =>
          if done && negb pick_send then Returns (Some context_Canceled, r)
          else
            match chan_send (dataCh r) data with
            | Returns c => HandleCallData_finish (set_dataCh r c) pkt
            | Blocks => Blocks
            | Panics msg => Panics msg
            end
      end
    else HandleCallData_finish r pkt.

(** [HandleCallStartResp] *)
Definition HandleCallStartResp (r : ServerRPC) : option error * ServerRPC :=
  (Some (errors_Wrap ErrUnrecognizedPacket "call start resp packet unexpected"), r).

(** [HandlePacket]; [Validate] is the packet's own method, declared with the
    generated packet types. *)
Definition HandlePacket (Validate : Packet -> option error)
    (r : ServerRPC) (msg : Packet) (pick_send : bool)
  : outcome (option error * ServerRPC) :=
  match Validate msg with
  | Some err => Returns (Some err, r)
  | None =>
      match Body msg with
      | Some (Packet_CallStart b) => HandleCallStart r b
      | Some (Packet_CallData b) => HandleCallData r b pick_send
      | Some Packet_CallStartResp => Returns (HandleCallStartResp r)
      | _ => Returns (None, r)
      end
  end.

(** What the handler sees: [NewRPCStream(r.ctx, r.writer, r.dataCh)].  The
    writer is the event log, the channel is shared with the ServerRPC. *)
Record RPCStream : Type := mkRPCStream {
  strm_ctxDone : bool;
  strm_log : list Event;
  strm_dataCh : chan
}.

Definition NewRPCStream (r : ServerRPC) : RPCStream :=
  mkRPCStream (ctxDone r) (log r) (dataCh r).

(** [Mux.InvokeMethod(serviceID, methodID, strm)]: runs the handler, which
    may send on the writer and receive from the channel, and reports
    [(recognized, err)]. *)
Definition Mux : Type :=
  string -> string -> RPCStream -> (bool * option error) * RPCStream.

(** The ServerRPC once the handler has returned leaving the stream as
    [strm]. *)
Definition after_handler (r : ServerRPC) (strm : RPCStream) : ServerRPC :=
  mkServerRPC (ctxDone r) (service r) (method r) (strm_dataCh strm)
              (dataChClosed r) (clientErr r) (strm_log strm).

(** [invokeRPC] *)
Definition invokeRPC `{SentinelText} (mux : Mux) (r : ServerRPC) : ServerRPC :=
  let serviceID := service r in
  let methodID := method r in
  let strm := NewRPCStream r in
  let '((ok, err), strm) := mux serviceID methodID strm in
  let err := if is_nil err && negb ok
             then Some ErrUnimplemented else err in
  let outPkt := NewCallDataPacket [] true err in
  let r := emit (after_handler r strm) (EvWriterMsgSend outPkt) in
  let r := ctxCancel r in
  emit r EvWriterClose.

(** [Close] *)
Definition ServerRPC_Close (r : ServerRPC) : ServerRPC :=
  let r := ctxCancel r in
  if bool_decide (service r = "") then emit r EvWriterClose else r.

(** A read pump handing packets to [HandlePacket] one after the other, each
    with the pick of its [select]; it goes on after an error return and stops
    when a call does not return. *)
Fixpoint HandlePackets (Validate : Packet -> option error)
    (r : ServerRPC) (msgs : list (Packet * bool)) : ServerRPC :=
  match msgs with
  | [] => r
  | (msg, pick_send) :: msgs =>
      match HandlePacket Validate r msg pick_send with
      | Returns (_, r) => HandlePackets Validate r msgs
      | _ => r
      end
  end.

(** The number of [go r.invokeRPC()] statements run so far. *)
Definition is_spawn (ev : Event) : bool :=
  match ev with
  | EvGoInvokeRPC => true
  | _ => false
  end.

Definition invocations (r : ServerRPC) : nat :=
  length (List.filter is_spawn (log r)).

(** [dataChClosed] mirrors the state of the channel. *)
Definition chan_flag_ok (r : ServerRPC) : Prop :=
  ch_closed (dataCh r) = dataChClosed r.

(** At most one invocation has been spawned, and a spawned invocation has
    left a service or a method recorded. *)
Definition start_inv (r : ServerRPC) : Prop :=
  invocations r <= 1 /\
  (invocations r = 1 -> service r <> "" \/ method r <> "").

(** [<-c] by the handler when a payload is queued: the oldest one leaves. *)
Definition chan_recv (c : chan) : option (bytes * chan) :=
  match ch_buf c with
  | [] => None
  | v :: rest => Some (v, mkChan rest (ch_cap c) (ch_closed c))
  end.

(** What can happen to a ServerRPC between its construction and its end: the
    read pump hands it a packet, the handler takes a payload off the channel,
    or the context is canceled. *)
Inductive Step : Type :=
| StepPacket (msg : Packet) (pick_send : bool)
| StepRecv
| StepCancel.

Definition step (Validate : Packet -> option error) (r : ServerRPC) (st : Step)
  : outcome ServerRPC :=
  match st with
  | StepPacket msg pick_send =>
      match HandlePacket Validate r msg pick_send with
      | Returns (_, r) => Returns r
      | Blocks => Blocks
      | Panics msg => Panics msg
      end
  | StepRecv =>
      match chan_recv (dataCh r) with
      | Some (_, c) => Returns (set_dataCh r c)
      | None => Returns r
      end
  | StepCancel =>
      Returns (mkServerRPC true (service r) (method r) (dataCh r)
                 (dataChClosed r) (clientErr r) (log r))
  end.

(** The steps in order; a step that does not return leaves the ServerRPC as
    it found it. *)
Fixpoint Run (Validate : Packet -> option error) (r : ServerRPC)
    (steps : list Step) : ServerRPC :=
  match steps with
  | [] => r
  | st :: steps =>
      match step Validate r st with
      | Returns r => Run Validate r steps
      | _ => Run Validate r steps
      end
  end.

(** The channel of a ServerRPC: the flag mirrors it, and it is the channel
    [NewServerRPC] made, never over its five slots. *)
Definition chan_inv (r : ServerRPC) : Prop :=
  chan_flag_ok r /\ ch_cap (dataCh r) = 5 /\ length (ch_buf (dataCh r)) <= 5.

(** The packet that carries the payload [fst d] and nothing else, with the
    pick of its [select]. *)
Definition payload_packet (z : bool) (d : bytes * bool) : Packet * bool :=
  (mkPacket (Some (Packet_CallData (mkCallData (fst d) z false ""))), snd d).

(** The number of [Close] calls on the writer so far. *)
Definition is_writer_close (ev : Event) : bool :=
  match ev with
  | EvWriterClose => true
  | _ => false
  end.

Definition writer_closes (l : list Event) : nat :=
  length (List.filter is_writer_close l).

(** *** Message and RawMessage (message.go) *)

(** The vtprotobuf message interface.  [UnmarshalVT] has a pointer receiver:
    it returns the updated message. *)
Class Message (M : Type) : Type := {
  MarshalVT : M -> bytes * option error;
  UnmarshalVT : bytes -> M -> option error * M
}.

Record RawMessage : Type := mkRawMessage {
  data : bytes;
  copy : bool
}.

Definition NewRawMessage (data : bytes) (copy : bool) : RawMessage :=
  mkRawMessage data copy.

Definition GetData (m : RawMessage) : bytes := data m.

(** [SetData]: with [copy] set, both arms of the capacity test leave in
    [m.data] a slice of length [len(data)], which [copy(m.data, data)] then
    overwrites; [make] stands for either. *)
Definition SetData (m : RawMessage) (d : bytes) : RawMessage :=
  if copy m then
    mkRawMessage (fst (go_copy (replicate (length d) "000"%byte) d)) true
  else mkRawMessage d (copy m).

Definition RawMessage_MarshalVT (m : RawMessage) : bytes * option error :=
  if negb (copy m) then (data m, None)
  else (fst (go_copy (replicate (length (data m)) "000"%byte) (data m)), None).

Definition RawMessage_UnmarshalVT (d : bytes) (m : RawMessage)
  : option error * RawMessage :=
  (None, SetData m d).

#[export] Instance RawMessage_Message : Message RawMessage :=
  {| MarshalVT := RawMessage_MarshalVT; UnmarshalVT := RawMessage_UnmarshalVT |}.

(** *** MsgStream (msg-stream.go) *)

(** [MsgStreamRw], acting on a world [W] that holds whatever the read-writer
    and the close callback touch. *)
Class MsgStreamRw (W : Type) : Type := {
  ReadOne : W -> (bytes * option error) * W;
  WriteCallData : bytes -> bool -> option error -> W -> option error * W
}.

Record MsgStream (W : Type) : Type := mkMsgStream {
  ctx_Done : W -> bool;            (* <-r.ctx.Done() is ready *)
  closeCb : option (W -> W)        (* nil or a func() *)
}.
Arguments mkMsgStream {W} ctx_Done closeCb.
Arguments ctx_Done {W} m w.
Arguments closeCb {W} m.

Section MsgStreamOps.
Context {W : Type} `{MsgStreamRw W}.

Definition NewMsgStream (ctx_Done : W -> bool) (closeCb : option (W -> W))
  : MsgStream W := mkMsgStream ctx_Done closeCb.

Definition MsgSend {M : Type} `{Message M} (r : MsgStream W) (msg : M) (w : W)
  : option error * W :=
  if ctx_Done r w then (Some context_Canceled, w)
  else
    let '(msgData, err) := MarshalVT msg in
    match err with
    | Some e => (Some e, w)
    | None => WriteCallData msgData false None w
    end.

Definition MsgRecv {M : Type} `{Message M} (r : MsgStream W) (msg : M) (w : W)
  : (option error * M) * W :=
  let '((data, err), w) := ReadOne w in
  match err with
  | Some e => ((Some e, msg), w)
  | None => (UnmarshalVT data msg, w)
  end.

Definition CloseSend (r : MsgStream W) (w : W) : option error * W :=
  WriteCallData [] true None w.

Definition Close (r : MsgStream W) (w : W) : option error * W :=
  let '(_, w) := CloseSend r w in
  let w := match closeCb r with
           | Some cb => cb w
           | None => w
           end in
  (None, w).

(** [n] calls of [Close] in a row. *)
Fixpoint Close_times (n : nat) (r : MsgStream W) (w : W) : W :=
  match n with
  | 0 => w
  | S n => Close_times n r (snd (Close r w))
  end.

End MsgStreamOps.

End srpc.

(* ================================================================== *)
(** ** CommonRPC (TypeScript) *)

Module commonrpc.

(** An [it-pushable] queue: [push] and [end] do nothing once it has ended. *)
Record Pushable (A : Type) : Type := mkPushable {
  items : list A;
  ended : bool;
  endErr : option string
}.
Arguments mkPushable {A} items ended endErr.
Arguments items {A} p.
Arguments ended {A} p.
Arguments endErr {A} p.

Definition pushable {A : Type} : Pushable A := mkPushable [] false None.

Definition push {A : Type} (p : Pushable A) (val : A) : Pushable A :=
  if ended p then p else mkPushable (items p ++ [val]) false None.

Definition end_ {A : Type} (p : Pushable A) (err : option string) : Pushable A :=
  if ended p then p else mkPushable (items p) true err.

(** [Partial<CallData>]: [data] may be undefined; an undefined [dataIsZero],
    [complete] or [error] is falsy like [false] and the empty string, and the
    code only tests them for truth. *)
Record CallData : Type := mkCallData {
  data : option bytes;
  dataIsZero : bool;
  complete : bool;
  error : string
}.

Record CallStart : Type := mkCallStart {
  rpcService : string;
  rpcMethod : string
}.

Inductive Body : Type :=
| callStart (b : CallStart)
| callData (b : CallData)
| callCancel (b : bool)
| callStartResp.

Record Packet : Type := mkPacket { body : option Body }.

Record CommonRPC : Type := mkCommonRPC {
  _source : Pushable Packet;
  _rpcDataSource : Pushable bytes;
  service : option string;
  method : option string
}.

(** [constructor] *)
Definition new_CommonRPC : CommonRPC :=
  mkCommonRPC pushable pushable None None.

(** A string used as a condition: undefined and the empty string are falsy. *)
Definition truthy (s : option string) : bool :=
  match s with
  | Some s => negb (bool_decide (s = ""))
  | None => false
  end.

(** [writePacket] *)
Definition writePacket (r : CommonRPC) (packet : Packet) : CommonRPC :=
  mkCommonRPC (push (_source r) packet) (_rpcDataSource r) (service r) (method r).

(** The [CallData] that [writeCallData(data?, complete?, error?)] builds. *)
Definition writeCallData_packet
    (d : option bytes) (c : option bool) (e : option string) : CallData :=
  {| data := Some (default [] d);
     dataIsZero := match d with
                   | Some d => bool_decide (length d = 0)
                   | None => false
                   end;
     complete := default false c;
     error := default "" e |}.

(** [writeCallData] *)
Definition writeCallData (r : CommonRPC)
    (d : option bytes) (c : option bool) (e : option string) : CommonRPC :=
  writePacket r (mkPacket (Some (callData (writeCallData_packet d c e)))).

(** [writeCallCancel] *)
Definition writeCallCancel (r : CommonRPC) : CommonRPC :=
  writePacket r (mkPacket (Some (callCancel true))).

(** [pushRpcData] *)
Definition pushRpcData (r : CommonRPC) (d : option bytes) (isZero : bool)
  : CommonRPC :=
  let push_data (d : bytes) :=
    mkCommonRPC (_source r) (push (_rpcDataSource r) d) (service r) (method r) in
  if isZero then
    match d with
    | Some d => if negb (bool_decide (length d = 0)) then push_data [] else push_data d
    | None => push_data []
    end
  else
    match d with
    | Some d => if bool_decide (length d = 0) then r else push_data d
    | None => r
    end.

Definition end_rpcDataSource (r : CommonRPC) (err : option string) : CommonRPC :=
  mkCommonRPC (_source r) (end_ (_rpcDataSource r) err) (service r) (method r).

(** [handleCallData]: [inl msg] is [throw new Error(msg)]. *)
Definition handleCallData (r : CommonRPC) (packet : CallData)
  : (string + unit) * CommonRPC :=
  if negb (truthy (service r)) || negb (truthy (method r)) then
    (inl "call start must be sent before call data", r)
  else
    let r := pushRpcData r (data packet) (dataIsZero packet) in
    if negb (bool_decide (error packet = "")) then
      (inr tt, end_rpcDataSource r (Some (error packet)))
    else if complete packet then
      (inr tt, end_rpcDataSource r None)
    else (inr tt, r).

(** [handleCallStart] of the base class *)
Definition handleCallStart (r : CommonRPC) (packet : CallStart)
  : (string + unit) * CommonRPC :=
  (inl ("unexpected call start: " +:+ rpcService packet +:+ "/" +:+ rpcMethod packet), r).

(** [close], once its promise has settled. *)
Definition close (r : CommonRPC) (err : option string) : CommonRPC :=
  let r := writeCallCancel r in
  let r := end_rpcDataSource r err in
  mkCommonRPC (end_ (_source r) None) (_rpcDataSource r) (service r) (method r).

(** [handlePacket] *)
Definition handlePacket (r : CommonRPC) (packet : Packet)
  : (string + unit) * CommonRPC :=
  let '(res, r) :=
    match body packet with
    | Some (callStart b) => handleCallStart r b
    | Some (callData b) => handleCallData r b
    | _ => (inr tt, r)
    end in
  match res with
  | inl msg =>
      let asError := if bool_decide (msg = "") then "error handling packet" else msg in
      (inl asError, close r (Some asError))
  | inr _ => (inr tt, r)
  end.

(** [writeCallDataFromSource].  The async iterable is the list of the values
    it yields and the error it throws after them, if it does. *)
Definition writeCallDataFromSource (r : CommonRPC)
    (dataSource : list bytes) (thrown : option string) : CommonRPC :=
  let r := fold_left (fun r d => writeCallData r (Some d) None None) dataSource r in
  match thrown with
  | None => writeCallData r None (Some true) None
  | Some err => close r (Some err)
  end.

(** [close] is called without [await] by [handlePacket] and by the sink.
    Such a call runs at once up to its first [await], which writes the
    CallCancel; its [finally] block, which ends the two queues, runs only
    when the caller has come to rest. *)
Definition close_start (r : CommonRPC) : CommonRPC := writeCallCancel r.

Definition close_finally (r : CommonRPC) (err : option string) : CommonRPC :=
  let r := end_rpcDataSource r err in
  mkCommonRPC (end_ (_source r) None) (_rpcDataSource r) (service r) (method r).

(** The [try] block of [handlePacket]. *)
Definition handlePacket_try (r : CommonRPC) (packet : Packet)
  : (string + unit) * CommonRPC :=
  match body packet with
  | Some (callStart b) => handleCallStart r b
  | Some (callData b) => handleCallData r b
  | _ => (inr tt, r)
  end.

(** The [for await] loop of the sink: packets are handled in order until one
    makes [handlePacket] throw.  For that packet the result is the error
    [handlePacket] rethrows and the CommonRPC as its [catch] block finds it,
    before the [close] it calls. *)
Fixpoint sink_loop (r : CommonRPC) (source : list Packet)
  : option string * CommonRPC :=
  match source with
  | [] => (None, r)
  | msg :: source =>
      match handlePacket_try r msg with
      | (inl msg, r) =>
          (Some (if bool_decide (msg = "") then "error handling packet" else msg), r)
      | (inr _, r) => sink_loop r source
      end
  end.

(** The sink built by [_createSink].  The source is the list of the packets
    it yields and the error it throws after them, if it does, as the error's
    [code] and message.

    When a packet is turned down, [handlePacket] starts a [close] and
    rethrows; the error has no code, so the sink starts a second [close],
    and then ends the queue of received data itself, without an error; the
    [finally] blocks of the two [close] calls run after that.  When the
    source throws, the sink starts one [close] unless the code is that of a
    reset or an abort, and ends the queue of received data before the
    [finally] block of that [close] runs. *)
Definition sink (r : CommonRPC) (source : list Packet)
    (thrown : option (option string * string)) : CommonRPC :=
  match sink_loop r source with
  | (Some err, r) =>
      let r := close_start r in
      let r := close_start r in
      let r := end_rpcDataSource r None in
      let r := close_finally r (Some err) in
      close_finally r (Some err)
  | (None, r) =>
      match thrown with
      | Some (code, err) =>
          if negb (bool_decide (code = Some "ERR_STREAM_RESET")) &&
             negb (bool_decide (code = Some "ERR_STREAM_ABORT"))
          then
            let r := close_start r in
            let r := end_rpcDataSource r None in
            close_finally r (Some err)
          else end_rpcDataSource r None
      | None => end_rpcDataSource r None
      end
  end.

End commonrpc.

(* ================================================================== *)
(** ** Package rpcstream (Go) *)

Module rpcstream.

(** *** Tunnel packets *)

Record RpcStreamInit : Type := mkRpcStreamInit { ComponentId : string }.
Record RpcAck : Type := mkRpcAck { Error : string }.

(** The oneof wrappers hold pointers, which may be nil. *)
Inductive isRpcStreamPacket_Body : Type :=
| RpcStreamPacket_Init (Init : option RpcStreamInit)
| RpcStreamPacket_Ack (Ack : option RpcAck)
| RpcStreamPacket_Data (Data : bytes).

(** A nil [*RpcStreamPacket] answers every getter like a packet without
    body. *)
Record RpcStreamPacket : Type := mkRpcStreamPacket {
  Body : option isRpcStreamPacket_Body
}.

(** The nil-safe getters of the generated packet types. *)
Definition GetComponentId (i : option RpcStreamInit) : string :=
  from_option ComponentId "" i.
Definition GetError (a : option RpcAck) : string :=
  from_option Error "" a.
Definition GetAck (p : RpcStreamPacket) : option RpcAck :=
  match Body p with
  | Some (RpcStreamPacket_Ack a) => a
  | _ => None
  end.
Definition GetData (p : RpcStreamPacket) : bytes :=
  match Body p with
  | Some (RpcStreamPacket_Data d) => d
  | _ => []
  end.

(** *** The RpcStream interface *)

(** The three methods the tunnel calls on the outer call; [S] is the state
    of the stream object.  [Recv] answers [(pkt, err)] and the code looks at
    [pkt] only when [err] is nil. *)
Class RpcStream (S : Type) : Type := {
  Send : RpcStreamPacket -> S -> option error * S;
  Recv : S -> (error + RpcStreamPacket) * S;
  Close : S -> option error * S
}.

Record RpcStreamReadWriter (S : Type) : Type := mkRpcStreamReadWriter {
  stream : S;
  buf : bytes
}.
Arguments mkRpcStreamReadWriter {S} stream buf.
Arguments stream {S} r.
Arguments buf {S} r.

(** [bytes.Buffer.Read]: the new content of [p], the count, the error, and
    what stays buffered. *)
Definition Buffer_Read (b : bytes) (p : bytes)
  : (bytes * nat * option error) * bytes :=
  if bool_decide (length b = 0) then
    if bool_decide (length p = 0) then ((p, 0, None), [])
    else ((p, 0, Some io_EOF), [])
  else
    let '(p', n) := go_copy p b in
    ((p', n, None), drop n b).

Section Tunnel.
Context {S : Type} `{RpcStream S} `{SentinelText}.

Definition NewRpcStreamReadWriter (stream : S) : RpcStreamReadWriter S :=
  mkRpcStreamReadWriter stream [].

Definition init_packet (componentID : string) : RpcStreamPacket :=
  mkRpcStreamPacket (Some (RpcStreamPacket_Init (Some (mkRpcStreamInit componentID)))).

Definition ack_packet (errStr : string) : RpcStreamPacket :=
  mkRpcStreamPacket (Some (RpcStreamPacket_Ack (Some (mkRpcAck errStr)))).

Definition data_packet (p : bytes) : RpcStreamPacket :=
  mkRpcStreamPacket (Some (RpcStreamPacket_Data p)).

(** [OpenRpcStream].  [rpcCaller] is the result of [rpcCaller(ctx)].  Beside
    the two results, the state in which the call leaves the stream it opened
    (none when the caller failed). *)
Definition OpenRpcStream (rpcCaller : error + S) (componentID : string)
    (waitAck : bool)
  : (option (RpcStreamReadWriter S) * option error) * option S :=
  match rpcCaller with
  | inl err => ((None, Some err), None)
  | inr rpcStream =>
      let '(err, rpcStream) := Send (init_packet componentID) rpcStream in
      match err with
      | Some err =>
          let '(_, rpcStream) := Close rpcStream in
          ((None, Some err), Some rpcStream)
      | None =>
          let '(err, rpcStream) :=
            if waitAck then
              let '(res, rpcStream) := Recv rpcStream in
              match res with
              | inr pkt =>
                  match Body pkt with
                  | Some (RpcStreamPacket_Ack ack) =>
                      let errStr := GetError ack in
                      if negb (bool_decide (errStr = ""))
                      then (Some (errors_Errorf_remote errStr), rpcStream)
                      else (None, rpcStream)
                  | _ => (Some (errors_New "expected ack packet"), rpcStream)
                  end
              | inl err => (Some err, rpcStream)
              end
            else (None, rpcStream) in
          match err with
          | Some err =>
              let '(_, rpcStream) := Close rpcStream in
              ((None, Some err), Some rpcStream)
          | None =>
              ((Some (NewRpcStreamReadWriter rpcStream), None), Some rpcStream)
          end
      end
  end.

(** [HandleRpcStream].  [M] is [srpc.Invoker], [R] names release functions.
    [getter] is [getter(ctx, componentID)]; [serve] is the nested session,
    from [NewPacketReadWriter] to [serverRPC.Wait].  Beside the returned
    error and the stream, the deferred calls run on return. *)
Definition HandleRpcStream {M R : Type}
    (getter : string -> option M * option R * option error)
    (serve : option M -> RpcStreamReadWriter S -> option error * S)
    (stream : S)
  : (option error * S) * list R :=
  let '(res, stream) := Recv stream in
  match res with
  | inl err => ((Some err, stream), [])
  | inr initPkt =>
      match Body initPkt with
      | Some (RpcStreamPacket_Init (Some init)) =>
          let componentID := ComponentId init in
          if bool_decide (componentID = "") then
            ((Some (errors_New "invalid init packet: empty component id"), stream), [])
          else
            let '(mux, muxRel, err) := getter componentID in
            let err :=
              if is_nil err && is_nil mux
              then Some (errors_New "no server for that component") else err in
            let deferred :=
              match mux, muxRel with
              | Some _, Some rel => [rel]
              | _, _ => []
              end in
            let errStr := match err with
                          | Some e => error_Error e
                          | None => ""
                          end in
            let '(sendErr, stream) := Send (ack_packet errStr) stream in
            match err, sendErr with
            | Some err, _ => ((Some err, stream), deferred)
            | None, Some sendErr => ((Some sendErr, stream), deferred)
            | None, None =>
                let srw := NewRpcStreamReadWriter stream in
                (serve mux srw, deferred)
            end
      | _ => ((Some (errors_New "expected init packet"), stream), [])
      end
  end.

(** [Write] *)
Definition Write (r : RpcStreamReadWriter S) (p : bytes)
  : (nat * option error) * RpcStreamReadWriter S :=
  if bool_decide (length p = 0) then ((0, None), r)
  else
    let '(err, s) := Send (data_packet p) (stream r) in
    let r := mkRpcStreamReadWriter s (buf r) in
    match err with
    | Some err => ((0, Some err), r)
    | None => ((length p, None), r)
    end.

(** The [for] loop of [Read].  The slice [p] is [filled ++ readBuf]: [filled]
    is the part already written, [readBuf] the part still to fill.  Every
    turn of the loop uses one unit of [fuel]; the result is the new content
    of [p] with [(n, err)]. *)
Fixpoint Read_loop (fuel : nat) (r : RpcStreamReadWriter S)
    (filled readBuf : bytes) (n : nat)
  : option ((bytes * nat * option error) * RpcStreamReadWriter S) :=
  if bool_decide (length readBuf = 0) then Some ((filled ++ readBuf, n, None), r)
  else
    match fuel with
    | 0 => None
    | Datatypes.S fuel =>
        if negb (bool_decide (length (buf r) = 0)) then
          let '((readBuf, rn, err), b) := Buffer_Read (buf r) readBuf in
          let r := mkRpcStreamReadWriter (stream r) b in
          let n := n + rn in
          let filled := filled ++ take rn readBuf in
          let readBuf := drop rn readBuf in
          match err with
          | Some err => Some ((filled ++ readBuf, n, Some err), r)
          | None => Read_loop fuel r filled readBuf n
          end
        else if negb (bool_decide (n = 0)) then
          Some ((filled ++ readBuf, n, None), r)
        else
          let '(res, s) := Recv (stream r) in
          let r := mkRpcStreamReadWriter s (buf r) in
          match res with
          | inl err => Some ((filled ++ readBuf, n, Some err), r)
          | inr pkt =>
              let errStr := GetError (GetAck pkt) in
              if negb (bool_decide (errStr = "")) then
                Some ((filled ++ readBuf, n, Some (errors_New errStr)), r)
              else
                let data := GetData pkt in
                if bool_decide (length data = 0) then
                  Read_loop fuel r filled readBuf n
                else
                  let '(copied, _) := go_copy readBuf data in
                  let '(rn, r) :=
                    if bool_decide (length readBuf < length data) then
                      (length readBuf,
                       mkRpcStreamReadWriter s (buf r ++ drop (length readBuf) data))
                    else (length data, r) in
                  Read_loop fuel r (filled ++ take rn copied) (drop rn copied) (n + rn)
          end
    end.

(** [Read] *)
Definition Read (fuel : nat) (r : RpcStreamReadWriter S) (p : bytes)
  : option ((bytes * nat * option error) * RpcStreamReadWriter S) :=
  Read_loop fuel r [] p 0.

(** [Close] of the read/writer *)
Definition ReadWriter_Close (r : RpcStreamReadWriter S)
  : option error * RpcStreamReadWriter S :=
  let '(err, s) := Close (stream r) in
  (err, mkRpcStreamReadWriter s (buf r)).

End Tunnel.

(** *** A scripted stream

    An [RpcStream] for running the tunnel: [Recv] hands out [incoming] in
    order and reports [io.EOF] after it; [Send] fails with [sendErr] when that
    is set and records the packet otherwise; [Close] counts its calls. *)
Record ScriptStream : Type := mkScriptStream {
  incoming : list (error + RpcStreamPacket);
  sendErr : option error;
  sent : list RpcStreamPacket;
  closes : nat
}.

Definition Script_Send (p : RpcStreamPacket) (s : ScriptStream)
  : option error * ScriptStream :=
  match sendErr s with
  | Some e => (Some e, s)
  | None => (None, mkScriptStream (incoming s) None (sent s ++ [p]) (closes s))
  end.

Definition Script_Recv (s : ScriptStream)
  : (error + RpcStreamPacket) * ScriptStream :=
  match incoming s with
  | [] => (inl io_EOF, s)
  | x :: rest => (x, mkScriptStream rest (sendErr s) (sent s) (closes s))
  end.

Definition Script_Close (s : ScriptStream) : option error * ScriptStream :=
  (None, mkScriptStream (incoming s) (sendErr s) (sent s) (Datatypes.S (closes s))).

#[export] Instance ScriptStream_RpcStream : RpcStream ScriptStream :=
  {| Send := Script_Send; Recv := Script_Recv; Close := Script_Close |}.

(** The bytes a read/writer over a scripted stream has yet to deliver: its
    buffer, then the payloads of the packets to come. *)
Definition payload_of (x : error + RpcStreamPacket) : bytes :=
  match x with
  | inr pkt => GetData pkt
  | inl _ => []
  end.

Definition pending (r : RpcStreamReadWriter ScriptStream) : bytes :=
  buf r ++ concat (map payload_of (incoming (stream r))).

(** A script of packets only, none of them an Ack with an error. *)
Definition clean (l : list (error + RpcStreamPacket)) : Prop :=
  Forall (fun x => exists pkt, x = inr pkt /\ GetError (GetAck pkt) = "") l.

(** A caller that reads with a slice of [size] bytes again and again, at
    most [reads] times, until a read reports an error: the bytes it got and
    that error. *)
Fixpoint ReadAll (reads size : nat) (r : RpcStreamReadWriter ScriptStream)
  : bytes * option error :=
  match reads with
  | 0 => ([], None)
  | Datatypes.S reads =>
      match Read (Datatypes.S (Datatypes.S (length (incoming (stream r))))) r
                 (replicate size "000"%byte) with
      | Some ((p, n, Some err), _) => (take n p, Some err)
      | Some ((p, n, None), r) =>
          let '(rest, err) := ReadAll reads size r in
          (take n p ++ rest, err)
      | None => ([], None)
      end
  end.

(** A caller that writes the slices [ps] one after the other. *)
Definition WriteAll {S : Type} `{RpcStream S}
    (r : RpcStreamReadWriter S) (ps : list bytes) : RpcStreamReadWriter S :=
  fold_left (fun r p => snd (Write r p)) ps r.

End rpcstream.

(* ================================================================== *)
(** ** protoc-gen-go-starpc: the names of the generated stream types *)

Module gen.

(** What the name functions read of a [protogen.Service] and a
    [protogen.Method]. *)
Record Service : Type := mkService { Service_GoName : string }.
Record Method : Type := mkMethod { Parent : Service; GoName : string }.

(** [strings.ReplaceAll(s, "_", "__")] *)
Fixpoint ReplaceAll_underscore (s : string) : string :=
  match s with
  | EmptyString => EmptyString
  | String c s =>
      if Ascii.eqb c "_"%char
      then String "_"%char (String "_"%char (ReplaceAll_underscore s))
      else String c (ReplaceAll_underscore s)
  end.

Definition ClientStreamIface (method : Method) : string :=
  "SRPC" +:+ ReplaceAll_underscore (Service_GoName (Parent method)) +:+ "_"
         +:+ ReplaceAll_underscore (GoName method) +:+ "Client".

Definition ClientStreamImpl (method : Method) : string :=
  "srpc" +:+ ReplaceAll_underscore (Service_GoName (Parent method)) +:+ "_"
         +:+ ReplaceAll_underscore (GoName method) +:+ "Client".

Definition ServerStreamIface (method : Method) : string :=
  "SRPC" +:+ ReplaceAll_underscore (Service_GoName (Parent method)) +:+ "_"
         +:+ ReplaceAll_underscore (GoName method) +:+ "Stream".

Definition ServerStreamImpl (method : Method) : string :=
  "srpc" +:+ ReplaceAll_underscore (Service_GoName (Parent method)) +:+ "_"
         +:+ ReplaceAll_underscore (GoName method) +:+ "Stream".

(** The string does not begin with an underscore. *)
Definition no_leading_underscore (s : string) : Prop :=
  match s with
  | EmptyString => True
  | String c _ => c <> "_"%char
  end.

End gen.

(* ================================================================== *)
(** ** Sample data for the closed instances *)

Module samples.

(** Sentinel texts to run the code with. *)
Definition texts : SentinelText :=
  {| ErrUnimplemented_text := "unimplemented";
     ErrCompleted_text := "unexpected packet after rpc was completed";
     ErrUnrecognizedPacket_text := "unrecognized packet type" |}.

(** A ServerRPC whose CallStart for [echo.Echoer/Echo] has been handled. *)
Definition started_rpc : srpc.ServerRPC :=
  srpc.emit (srpc.set_start (srpc.NewServerRPC false) "Echo" "echo.Echoer")
            srpc.EvGoInvokeRPC.

(** A world that counts: the [WriteCallData] calls it has seen and the
    number of times the close callback ran. *)
Record CountingWorld : Type := mkCountingWorld {
  writes : list (bytes * bool * option error);
  closeCbRuns : nat
}.

#[export] Instance CountingWorld_rw : srpc.MsgStreamRw CountingWorld :=
  {| srpc.ReadOne w := (([], Some io_EOF), w);
     srpc.WriteCallData d c e w :=
       (None, mkCountingWorld (writes w ++ [(d, c, e)]) (closeCbRuns w)) |}.

Definition counting_cb (w : CountingWorld) : CountingWorld :=
  mkCountingWorld (writes w) (S (closeCbRuns w)).

Definition counting_stream : srpc.MsgStream CountingWorld :=
  srpc.NewMsgStream (fun _ => false) (Some counting_cb).

(** A world that carries payloads back: [WriteCallData] queues the data of
    a packet that is neither complete nor an error, [ReadOne] hands out the
    oldest queued payload and reports [io.EOF] when there is none. *)
Record Loopback : Type := mkLoopback { queued : list bytes }.

#[export] Instance Loopback_rw : srpc.MsgStreamRw Loopback :=
  {| srpc.ReadOne w :=
       match queued w with
       | [] => (([], Some io_EOF), w)
       | d :: rest => ((d, None), mkLoopback rest)
       end;
     srpc.WriteCallData d c e w :=
       if c || negb (is_nil e) then (None, w)
       else (None, mkLoopback (queued w ++ [d])) |}.

(** A [Validate] that turns down a CallStart naming neither service nor
    method and lets every other packet pass. *)
Definition sample_Validate (msg : srpc.Packet) : option error :=
  match srpc.Body msg with
  | Some (srpc.Packet_CallStart b) =>
      if bool_decide (srpc.RpcService b = "") && bool_decide (srpc.RpcMethod b = "")
      then Some (errors_New "invalid call start")
      else None
  | _ => None
  end.

End samples.

(* ================================================================== *)
(** ** ServerRPC: results *)

Section ServerRPC_facts.
Import srpc.

Lemma NewServerRPC_chan_flag_ok parentDone : chan_flag_ok (NewServerRPC parentDone).
Proof. reflexivity. Qed.

Lemma HandleCallStart_chan_flag_ok r pkt err r' :
  chan_flag_ok r ->
  HandleCallStart r pkt = Returns (err, r') ->
  chan_flag_ok r'.
Proof.
  unfold chan_flag_ok, HandleCallStart. intros Hok.
  destruct (negb _ || negb _); [intros [= <- <-]; exact Hok|].
  destruct (dataChClosed r) eqn:Hc; [intros [= <- <-]; congruence|].
  destruct (negb _); simpl; [|intros [= <- <-]; simpl; congruence].
  unfold chan_send_ready, chan_send; simpl. rewrite Hok.
  destruct (chan_has_room _); simpl; intros [= <- <-]; simpl; congruence.
Qed.

Lemma HandleCallData_finish_chan_flag_ok r pkt err r' :
  chan_flag_ok r -> dataChClosed r = false ->
  HandleCallData_finish r pkt = Returns (err, r') ->
  chan_flag_ok r'.
Proof.
  unfold chan_flag_ok, HandleCallData_finish, chan_close. intros Hok Hc.
  destruct (negb _); simpl; rewrite ?Hok, ?Hc; simpl.
  - intros [= <- <-]. reflexivity.
  - destruct (Complete pkt); simpl; rewrite ?Hok, ?Hc;
      intros [= <- <-]; simpl; congruence.
Qed.

Lemma HandleCallData_chan_flag_ok r pkt pick err r' :
  chan_flag_ok r ->
  HandleCallData r pkt pick = Returns (err, r') ->
  chan_flag_ok r'.
Proof.
  intros Hok. unfold HandleCallData.
  destruct (dataChClosed r) eqn:Hc; [intros [= <- <-]; exact Hok|].
  assert (Hch : ch_closed (dataCh r) = false) by (rewrite Hok; exact Hc).
  destruct (negb _).
  - unfold chan_send_ready, chan_send. rewrite Hch. simpl.
    destruct (ctxDone r), (chan_has_room (dataCh r)), pick; simpl;
      try (intros [= <- <-]; exact Hok); try discriminate;
      apply HandleCallData_finish_chan_flag_ok;
      unfold chan_flag_ok; simpl; congruence.
  - apply HandleCallData_finish_chan_flag_ok; assumption.
Qed.

(** While the flag mirrors the channel, handling a packet never panics. *)
Lemma HandleCallData_no_panic r pkt pick msg :
  chan_flag_ok r -> HandleCallData r pkt pick <> Panics msg.
Proof.
  unfold chan_flag_ok, HandleCallData. intros Hok.
  destruct (dataChClosed r) eqn:Hc; [discriminate|].
  assert (Hfin : forall c, ch_closed c = false ->
            HandleCallData_finish (set_dataCh r c) pkt <> Panics msg).
  { intros c Hcc. unfold HandleCallData_finish, chan_close.
    destruct (negb _); simpl; rewrite ?Hcc; [discriminate|].
    destruct (Complete pkt); simpl; rewrite ?Hcc; discriminate. }
  destruct (negb _).
  - unfold chan_send_ready, chan_send. rewrite Hok. simpl.
    destruct (ctxDone r), (chan_has_room (dataCh r)), pick; simpl;
      try discriminate; apply Hfin; reflexivity.
  - replace r with (set_dataCh r (dataCh r)) at 1 by (destruct r; reflexivity).
    apply Hfin. congruence.
Qed.

(** [HandleCallData] leaves the recorded service and method alone, and spawns
    nothing. *)
Lemma HandleCallData_keeps_start r pkt pick err r' :
  HandleCallData r pkt pick = Returns (err, r') ->
  service r' = service r /\ method r' = method r /\ log r' = log r.
Proof.
  assert (Hfin : forall r0 e0 r1,
            HandleCallData_finish r0 pkt = Returns (e0, r1) ->
            service r1 = service r0 /\ method r1 = method r0 /\ log r1 = log r0).
  { intros r0 e0 r1. unfold HandleCallData_finish, chan_close.
    destruct (negb _); simpl.
    - destruct (ch_closed _); [discriminate|]. intros [= <- <-]. auto.
    - destruct (Complete pkt); simpl.
      + destruct (ch_closed _); [discriminate|]. intros [= <- <-]. auto.
      + intros [= <- <-]. auto. }
  unfold HandleCallData.
  destruct (dataChClosed r); [intros [= <- <-]; auto|].
  destruct (negb _); [|apply Hfin].
  unfold chan_send.
  destruct (ctxDone r), (chan_send_ready (dataCh r)), pick; simpl;
    try discriminate; try (intros [= <- <-]; auto);
    destruct (ch_closed (dataCh r)); try discriminate;
    intros Hf; apply Hfin in Hf; exact Hf.
Qed.

(** The guard of [HandleCallStart] in one place. *)
Lemma HandleCallStart_guard r pkt :
  service r <> "" \/ method r <> "" ->
  HandleCallStart r pkt =
    Returns (Some (errors_New "call start must be sent only once"), r).
Proof.
  intros Hs. unfold HandleCallStart.
  destruct (bool_decide_reflect (method r = "")) as [Hm|Hm];
    destruct (bool_decide_reflect (service r = "")) as [Hv|Hv];
    simpl; try reflexivity.
  destruct Hs; contradiction.
Qed.

(** A [HandleCallStart] that spawns the invocation found no call recorded,
    records the packet's names and spawns exactly once. *)
Lemma HandleCallStart_spawns r pkt r' :
  HandleCallStart r pkt = Returns (None, r') ->
  service r = "" /\ method r = "" /\
  service r' = RpcService pkt /\ method r' = RpcMethod pkt /\
  log r' = log r ++ [EvGoInvokeRPC].
Proof.
  unfold HandleCallStart.
  destruct (bool_decide_reflect (method r = "")) as [Hm|Hm];
    destruct (bool_decide_reflect (service r = "")) as [Hv|Hv];
    simpl; try discriminate.
  destruct (dataChClosed r); [discriminate|].
  destruct (negb _); simpl.
  - destruct (chan_send_ready _); [|discriminate].
    unfold chan_send. destruct (ch_closed _); [discriminate|].
    intros [= <-]. simpl. auto.
  - intros [= <-]. simpl. auto.
Qed.

End ServerRPC_facts.

Section ServerRPC_claims.
Import srpc.

Lemma invocations_emit_spawn r :
  invocations (emit r EvGoInvokeRPC) = S (invocations r).
Proof.
  unfold invocations, emit. simpl.
  rewrite List.filter_app, length_app. simpl. lia.
Qed.

(** An error return of [HandleCallStart] spawns nothing; it leaves the
    ServerRPC as it was unless no call was recorded yet. *)
Lemma HandleCallStart_error r pkt e r' :
  HandleCallStart r pkt = Returns (Some e, r') ->
  log r' = log r /\ (r' = r \/ (service r = "" /\ method r = "")).
Proof.
  unfold HandleCallStart.
  destruct (bool_decide_reflect (method r = "")) as [Hm|Hm];
    destruct (bool_decide_reflect (service r = "")) as [Hv|Hv];
    simpl; try (intros [= <- <-]; auto).
  destruct (dataChClosed r); [intros [= <- <-]; auto|].
  destruct (negb _); simpl; [|discriminate].
  destruct (chan_send_ready _).
  - unfold chan_send. destruct (ch_closed _); discriminate.
  - intros [= <- <-]. simpl. auto.
Qed.

(** C2. Exactly-one-start: on a ServerRPC that has recorded a non-empty
    service or method, [HandleCallStart] returns the error "call start must be
    sent only once" and leaves the ServerRPC, hence its log of spawned
    invocations, untouched. *)
Theorem second_CallStart_rejected (r : ServerRPC) (pkt : CallStart) :
  service r <> "" \/ method r <> "" ->
  HandleCallStart r pkt =
    Returns (Some (errors_New "call start must be sent only once"), r)
  /\ forall e r', HandleCallStart r pkt = Returns (e, r') ->
       invocations r' = invocations r.
Proof.
  intros Hs. pose proof (HandleCallStart_guard r pkt Hs) as Hg.
  split; [exact Hg|].
  intros e r' Hr. rewrite Hg in Hr. injection Hr as _ <-. reflexivity.
Qed.

Lemma second_CallStart_rejected_witness :
  HandleCallStart samples.started_rpc (mkCallStart "echo.Echoer" "Echo" [] false) =
    Returns (Some (errors_New "call start must be sent only once"),
             samples.started_rpc)
  /\ forall e r',
       HandleCallStart samples.started_rpc (mkCallStart "echo.Echoer" "Echo" [] false)
         = Returns (e, r') ->
       invocations r' = invocations samples.started_rpc.
Proof.
  apply (second_CallStart_rejected samples.started_rpc).
  left. vm_compute. discriminate.
Defined.

Lemma HandlePacket_start_inv Validate r msg pick e r' :
  (forall b, Validate (mkPacket (Some (Packet_CallStart b))) = None ->
             RpcService b <> "" \/ RpcMethod b <> "") ->
  start_inv r ->
  HandlePacket Validate r msg pick = Returns (e, r') ->
  start_inv r'.
Proof.
  intros HV [Hle Hone]. unfold HandlePacket.
  destruct (Validate msg) eqn:Hval; [intros [= <- <-]; split; assumption|].
  destruct msg as [[[b|b|b|]|]]; simpl;
    try (intros [= <- <-]; split; assumption).
  - destruct e as [e|]; intros Hr.
    + apply HandleCallStart_error in Hr as [Hlog Hcase].
      unfold start_inv, invocations in *. rewrite Hlog.
      destruct Hcase as [->|[Hs Hm]]; [split; assumption|].
      assert (Hz : length (List.filter is_spawn (log r)) <> 1).
      { intros H1. destruct (Hone H1); contradiction. }
      split; [lia|]. intros H1. contradiction.
    + apply HandleCallStart_spawns in Hr as (Hs & Hm & Hs' & Hm' & Hlog).
      assert (Hz : invocations r = 0).
      { destruct (decide (invocations r = 1)) as [H1|H1]; [|lia].
        destruct (Hone H1); contradiction. }
      assert (Hinv : invocations r' = 1).
      { unfold invocations in *. rewrite Hlog, List.filter_app, length_app.
        simpl. lia. }
      split; [lia|]. intros _. rewrite Hs', Hm'. apply HV, Hval.
  - intros Hr. apply HandleCallData_keeps_start in Hr as (Hs & Hm & Hlog).
    unfold start_inv, invocations in *. rewrite Hlog, Hs, Hm. split; assumption.
Qed.

(** X1. Along any sequence of packets, the recorded call shields the spawn: at
    most one invocation is ever spawned, provided [Validate] turns down a
    CallStart that names neither service nor method (section 4.1). *)
Theorem at_most_one_invocation Validate parentDone msgs :
  (forall b, Validate (mkPacket (Some (Packet_CallStart b))) = None ->
             RpcService b <> "" \/ RpcMethod b <> "") ->
  invocations (HandlePackets Validate (NewServerRPC parentDone) msgs) <= 1.
Proof.
  intros HV.
  assert (Hgen : forall r, start_inv r ->
            start_inv (HandlePackets Validate r msgs)).
  { induction msgs as [|[msg pick] msgs IH]; intros r Hr; simpl; [exact Hr|].
    destruct (HandlePacket Validate r msg pick) as [[e r']| |] eqn:Hh;
      try exact Hr.
    apply IH. eapply HandlePacket_start_inv; eassumption. }
  apply Hgen. split; [vm_compute; lia|]. vm_compute. discriminate.
Qed.

(** C3. On a ServerRPC that has handled no CallStart, the Go handler does not
    report a protocol error for a CallData packet: it queues the payload and
    returns nil. *)
Theorem CallData_before_CallStart_is_queued (isZero pick_send : bool) :
  HandleCallData (NewServerRPC false)
      (mkCallData ["001"%byte] isZero false "") pick_send
  = Returns (None,
             set_dataCh (NewServerRPC false) (mkChan [["001"%byte]] 5 false)).
Proof. destruct isZero, pick_send; reflexivity. Qed.

(** C10. On a freshly constructed ServerRPC, [HandleCallStart] never takes
    the "data channel was full, expected empty" branch: it returns nil, has
    queued the inline data if there is any, and has spawned the invocation. *)
Theorem first_CallStart_finds_room (parentDone : bool) (pkt : CallStart) :
  (forall r', HandleCallStart (NewServerRPC parentDone) pkt <>
     Returns (Some (errors_New "data channel was full, expected empty"), r'))
  /\ exists r',
       HandleCallStart (NewServerRPC parentDone) pkt = Returns (None, r') /\
       ch_buf (dataCh r') = (if bool_decide (length (cs_Data pkt) = 0)
                             then [] else [cs_Data pkt]) /\
       log r' = [EvGoInvokeRPC].
Proof.
  unfold HandleCallStart. simpl.
  destruct (bool_decide (length (cs_Data pkt) = 0)); simpl.
  - split; [discriminate|]. eexists; repeat split.
  - split; [discriminate|]. eexists; repeat split.
Qed.

(** The same holds whenever fewer than five payloads are queued. *)
Lemma HandleCallStart_room r pkt r' :
  chan_has_room (dataCh r) = true ->
  HandleCallStart r pkt <>
    Returns (Some (errors_New "data channel was full, expected empty"), r').
Proof.
  intros Hroom. unfold HandleCallStart.
  destruct (negb _ || negb _); [discriminate|].
  destruct (dataChClosed r); [discriminate|].
  destruct (negb _); simpl; [|discriminate].
  unfold chan_send_ready, chan_send. simpl. rewrite Hroom, orb_true_r.
  destruct (ch_closed _); discriminate.
Qed.

(** C1, Go receiver. A CallData packet whose payload has length zero queues
    nothing on the server, with or without DataIsZero: when the packet carries
    neither completion nor error the ServerRPC is left exactly as it was, so
    the handler's next receive sees no message for it. *)
Theorem zero_length_CallData_not_queued (pick_send : bool) :
  HandleCallData samples.started_rpc (mkCallData [] true false "") pick_send
    = Returns (None, samples.started_rpc)
  /\ ch_buf (dataCh samples.started_rpc) = [].
Proof. split; reflexivity. Qed.

Lemma zero_length_CallData_ignores_flag r isZero complete err pick_send :
  HandleCallData r (mkCallData [] isZero complete err) pick_send =
  HandleCallData r (mkCallData [] (negb isZero) complete err) pick_send.
Proof. reflexivity. Qed.

(** C4. Once [InvokeMethod] has returned [(ok, err)], [invokeRPC] makes
    exactly three more calls, in this order: one [MsgSend] of a CallData
    packet with complete=true, no data, and as error the text of [err], the
    text of ErrUnimplemented when [err] is nil and [ok] is false, and the
    empty string on success; then the cancel function of the context; then
    [Close] of the writer. *)
Theorem invokeRPC_terminal_packet `{SentinelText} (mux : Mux) (r : ServerRPC) :
  let '((ok, err), strm) := mux (service r) (method r) (NewRPCStream r) in
  let errText :=
    match err with
    | Some e => error_Error e
    | None => if ok then "" else error_Error ErrUnimplemented
    end in
  log (invokeRPC mux r) =
    strm_log strm ++
      [EvWriterMsgSend (mkPacket (Some (Packet_CallData
         (mkCallData [] false true errText))));
       EvCtxCancel;
       EvWriterClose]
  /\ ctxDone (invokeRPC mux r) = true.
Proof.
  unfold invokeRPC.
  destruct (mux (service r) (method r) (NewRPCStream r)) as [[ok err] strm].
  destruct err as [e|], ok; simpl; rewrite <- !app_assoc; split; reflexivity.
Qed.

End ServerRPC_claims.

(* ================================================================== *)
(** ** MsgStream: results *)

Section MsgStream_claims.
Import srpc.
Existing Instance samples.CountingWorld_rw.

Lemma Close_returns_nil {W : Type} `{MsgStreamRw W} (r : MsgStream W) (w : W) :
  fst (Close r w) = None.
Proof. unfold Close. destruct (CloseSend r w). reflexivity. Qed.

Lemma Close_times_succ {W : Type} `{MsgStreamRw W} (r : MsgStream W) n w :
  Close_times (S n) r w = snd (Close r (Close_times n r w)).
Proof.
  revert w. induction n as [|n IH]; intros w; [reflexivity|].
  change (Close_times (S (S n)) r w) with (Close_times (S n) r (snd (Close r w))).
  rewrite IH. reflexivity.
Qed.

Lemma Close_world {W : Type} `{MsgStreamRw W} (r : MsgStream W) (w : W) :
  snd (Close r w) =
    match closeCb r with
    | Some cb => cb (snd (WriteCallData [] true None w))
    | None => snd (WriteCallData [] true None w)
    end.
Proof.
  unfold Close, CloseSend.
  destruct (WriteCallData [] true None w) as [e w1].
  destruct (closeCb r); reflexivity.
Qed.

(** C5, as the code has it. [Close] has no once-guard.  Every call returns
    nil and does two things to the world, in this order: the half-close
    [WriteCallData(nil, true, nil)], whose error is dropped, and then the close
    callback when there is one, nothing more when it is nil.  So [n] calls of
    [Close] are [n] rounds of half-close and callback: whatever counts the
    half-closes written reads [n] more, and so does whatever counts the runs
    of a callback.  [Close] is idempotent exactly when one such round is,
    that is, only as far as the read-writer and the callback are. *)
Theorem Close_runs_callback_every_time {W : Type} `{MsgStreamRw W}
    (r : MsgStream W) (n : nat) (w : W) :
  let half_close := fun w : W => snd (WriteCallData [] true None w) in
  let callback := fun w : W =>
    match closeCb r with
    | Some cb => cb w
    | None => w
    end in
  (fst (Close r w) = None /\ snd (Close r w) = callback (half_close w))
  /\ Close_times n r w = Nat.iter n (fun w => callback (half_close w)) w
  /\ (forall (count : W -> nat),
        (forall w, count (half_close w) = S (count w)) ->
        (forall w, count (callback w) = count w) ->
        count (Close_times n r w) = count w + n)
  /\ (forall (count : W -> nat) (cb : W -> W),
        closeCb r = Some cb ->
        (forall w, count (cb w) = S (count w)) ->
        (forall w, count (half_close w) = count w) ->
        count (Close_times n r w) = count w + n)
  /\ ((forall w, snd (Close r (snd (Close r w))) = snd (Close r w)) <->
      (forall w, callback (half_close (callback (half_close w)))
                 = callback (half_close w)))
  /\ ((forall w, snd (Close r (snd (Close r w))) = snd (Close r w)) ->
      Close_times (S n) r w = Close_times 1 r w).
Proof.
  intros half_close callback.
  assert (Hstep : forall w, snd (Close r w) = callback (half_close w)).
  { intros w0. rewrite Close_world. subst callback half_close. cbn beta.
    destruct (closeCb r); reflexivity. }
  assert (Hiter : forall n w,
            Close_times n r w = Nat.iter n (fun w => callback (half_close w)) w).
  { intros k. induction k as [|k IH]; intros w0; [reflexivity|].
    rewrite Close_times_succ, IH, Hstep. reflexivity. }
  assert (Hcount : forall (count : W -> nat),
            (forall w, count (callback (half_close w)) = S (count w)) ->
            forall n w, count (Close_times n r w) = count w + n).
  { intros count Hc k. induction k as [|k IH]; intros w0.
    - cbn. lia.
    - rewrite Close_times_succ, Hstep, Hc, IH. lia. }
  split; [split; [apply Close_returns_nil|apply Hstep]|].
  split; [apply Hiter|].
  split; [intros count Hw Hcb; apply Hcount; intros w0; rewrite Hcb, Hw;
          reflexivity|].
  split.
  { intros count cb Hsome Hcb Hw. apply Hcount. intros w0.
    subst callback. cbn beta. rewrite Hsome, Hcb, Hw. reflexivity. }
  split.
  { split; intros Hid w0.
    - rewrite <- !Hstep. apply Hid.
    - rewrite !Hstep. apply Hid. }
  intros Hid. induction n as [|k IH]; [reflexivity|].
  rewrite Close_times_succ, IH. cbn [Close_times]. apply Hid.
Qed.

Lemma Close_runs_callback_every_time_witness :
  length (samples.writes
     (Close_times 3 samples.counting_stream (samples.mkCountingWorld [] 0))) = 0 + 3
  /\ samples.closeCbRuns
       (Close_times 3 samples.counting_stream (samples.mkCountingWorld [] 0)) = 0 + 3
  /\ samples.writes
       (Close_times 3 samples.counting_stream (samples.mkCountingWorld [] 0))
     = [([], true, None); ([], true, None); ([], true, None)].
Proof.
  pose proof (Close_runs_callback_every_time samples.counting_stream 3
                (samples.mkCountingWorld [] 0)) as (_ & Hiter & Hwrites & Hruns & _).
  split; [|split].
  - apply (Hwrites (fun w => length (samples.writes w))).
    + intros w. cbn. rewrite length_app. cbn. lia.
    + intros w. reflexivity.
  - apply (Hruns samples.closeCbRuns samples.counting_cb).
    + reflexivity.
    + intros w. reflexivity.
    + intros w. reflexivity.
  - rewrite Hiter. reflexivity.
Defined.

(** C5, as stated, fails: two calls of [Close] do not leave the world one
    call leaves, and the callback has run twice. *)
Lemma Close_twice_differs_from_once :
  Close_times 2 samples.counting_stream (samples.mkCountingWorld [] 0)
    <> Close_times 1 samples.counting_stream (samples.mkCountingWorld [] 0)
  /\ samples.closeCbRuns
       (Close_times 2 samples.counting_stream (samples.mkCountingWorld [] 0)) = 2
  /\ length (samples.writes
       (Close_times 2 samples.counting_stream (samples.mkCountingWorld [] 0))) = 2.
Proof. split; [vm_compute; discriminate|]. split; reflexivity. Qed.

(** [MsgSend] hands the marshalled bytes to [WriteCallData] as they are, also
    when there are none. *)
Lemma MsgSend_empty_RawMessage {W : Type} `{MsgStreamRw W}
    (r : MsgStream W) (cp : bool) (w : W) :
  ctx_Done r w = false ->
  MsgSend r (NewRawMessage [] cp) w = WriteCallData [] false None w.
Proof. intros Hd. unfold MsgSend. rewrite Hd. destruct cp; reflexivity. Qed.

End MsgStream_claims.

(* ================================================================== *)
(** ** CommonRPC: results *)

Section CommonRPC_facts.
Import commonrpc.

(** [writeCallData] sets [dataIsZero] exactly for a payload that is present
    and empty. *)
Lemma writeCallData_packet_dataIsZero d c e :
  dataIsZero (writeCallData_packet d c e) = true <-> d = Some [].
Proof.
  unfold writeCallData_packet. simpl. destruct d as [[|b d]|]; simpl.
  - split; reflexivity.
  - split; discriminate.
  - split; discriminate.
Qed.

(** The TypeScript receiver honours the flag: a payload of length zero is
    queued for the caller iff [dataIsZero] is set. *)
Lemma pushRpcData_zero_length r d isZero :
  ended (_rpcDataSource r) = false ->
  default [] d = [] ->
  items (_rpcDataSource (pushRpcData r d isZero)) =
    if isZero then items (_rpcDataSource r) ++ [[]] else items (_rpcDataSource r).
Proof.
  intros He Hd. unfold pushRpcData, push.
  destruct isZero, d as [[|b d]|]; simpl in *; rewrite ?He;
    try reflexivity; discriminate.
Qed.

(** Sent with [writeCallData] and handled by [handleCallData], the empty
    payload arrives as an empty payload. *)
Lemma empty_payload_round_trip r c e :
  truthy (service r) = true -> truthy (method r) = true ->
  ended (_rpcDataSource r) = false ->
  exists r',
    handleCallData r (writeCallData_packet (Some []) c e) = (inr tt, r') /\
    items (_rpcDataSource r') = items (_rpcDataSource r) ++ [[]].
Proof.
  intros Hs Hm He. unfold handleCallData. rewrite Hs, Hm. simpl.
  unfold push. rewrite He.
  destruct (negb _); [|destruct (default false c)]; eexists; split;
    reflexivity.
Qed.

(** The TypeScript receiver turns down data that comes before the call
    start: [handleCallData] throws, and [handlePacket] answers with a
    CallCancel packet, ends both queues and rethrows. *)
Lemma handleCallData_before_start packet :
  handleCallData new_CommonRPC packet =
    (inl "call start must be sent before call data", new_CommonRPC).
Proof. reflexivity. Qed.

Lemma handlePacket_data_before_start packet :
  handlePacket new_CommonRPC (mkPacket (Some (callData packet))) =
    (inl "call start must be sent before call data",
     mkCommonRPC
       (mkPushable [mkPacket (Some (callCancel true))] true None)
       (mkPushable [] true (Some "call start must be sent before call data"))
       None None).
Proof. reflexivity. Qed.

End CommonRPC_facts.

(* ================================================================== *)
(** ** The tunnel: results *)

Section Tunnel_facts.
Import rpcstream.
Context {S : Type} `{RpcStream S}.

(** What [copy] leaves in the destination, by the number of bytes copied. *)
Lemma go_copy_spec (dst src : bytes) :
  go_copy dst src =
    (take (Nat.min (length dst) (length src)) src
       ++ drop (Nat.min (length dst) (length src)) dst,
     Nat.min (length dst) (length src)).
Proof.
  unfold go_copy. f_equal.
  destruct (decide (length dst <= length src)) as [Hle|Hgt].
  - rewrite Nat.min_l by exact Hle.
    rewrite (drop_ge dst (length src)) by exact Hle.
    rewrite (drop_ge dst (length dst)) by lia. reflexivity.
  - rewrite Nat.min_r by lia.
    rewrite (take_ge src (length dst)) by lia.
    rewrite (take_ge src (length src)) by lia. reflexivity.
Qed.

Lemma take_drop_copied (k : nat) (src dst : bytes) :
  k <= length src ->
  take k (take k src ++ drop k dst) = take k src /\
  drop k (take k src ++ drop k dst) = drop k dst.
Proof.
  intros Hk.
  assert (Hlen : length (take k src) = k) by (rewrite length_take; lia).
  split.
  - rewrite take_app_le by lia. rewrite take_ge by lia. reflexivity.
  - rewrite drop_app_ge by lia. rewrite Hlen, Nat.sub_diag. reflexivity.
Qed.

(** Once a byte has been delivered and either [p] is full or nothing is
    buffered, the loop is over: no further [Recv]. *)
Lemma Read_loop_after_delivery fuel (r : RpcStreamReadWriter S) filled readBuf n :
  readBuf = [] \/ (buf r = [] /\ n <> 0) ->
  Read_loop (Datatypes.S fuel) r filled readBuf n =
    Some ((filled ++ readBuf, n, None), r).
Proof.
  intros [->|[Hb Hn]]; [reflexivity|].
  destruct readBuf as [|x readBuf]; [reflexivity|].
  cbn [Read_loop length]. rewrite Hb. cbn [length].
  rewrite (bool_decide_eq_true_2 (0 = 0)) by reflexivity.
  rewrite (bool_decide_eq_false_2 (n = 0)) by exact Hn.
  rewrite bool_decide_eq_false_2 by discriminate. reflexivity.
Qed.

(** More fuel does not change a result. *)
Lemma Read_loop_fuel_mono fuel (r : RpcStreamReadWriter S) filled readBuf n x :
  Read_loop fuel r filled readBuf n = Some x ->
  Read_loop (Datatypes.S fuel) r filled readBuf n = Some x.
Proof.
  revert r filled readBuf n.
  induction fuel as [|fuel IH]; intros r filled readBuf n.
  - simpl. destruct (bool_decide (length readBuf = 0)); [auto|discriminate].
  - intros Hr. cbn [Read_loop] in Hr.
    remember (Datatypes.S fuel) as fuel1 eqn:Hfuel. cbn [Read_loop].
    destruct (bool_decide (length readBuf = 0)); [exact Hr|].
    destruct (negb (bool_decide (length (buf r) = 0))).
    + destruct (Buffer_Read (buf r) readBuf) as [[[rb rn] [e|]] b];
        [exact Hr|]. subst fuel1. apply IH, Hr.
    + destruct (negb (bool_decide (n = 0))); [exact Hr|].
      destruct (Recv (stream r)) as [[e|pkt] s]; [exact Hr|].
      destruct (negb (bool_decide (GetError (GetAck pkt) = ""))); [exact Hr|].
      destruct (bool_decide (length (GetData pkt) = 0));
        [subst fuel1; apply IH, Hr|].
      destruct (go_copy readBuf (GetData pkt)) as [copied k].
      destruct (bool_decide (length readBuf < length (GetData pkt)));
        subst fuel1; apply IH, Hr.
Qed.

(** The first turn of the loop on a non-empty buffer. *)
Lemma Read_buffered fuel (r : RpcStreamReadWriter S) (p : bytes) :
  p <> [] -> buf r <> [] ->
  let k := Nat.min (length p) (length (buf r)) in
  Read (Datatypes.S (Datatypes.S fuel)) r p =
    Some ((take k (buf r) ++ drop k p, k, None),
          mkRpcStreamReadWriter (stream r) (drop k (buf r))).
Proof.
  intros Hp Hb k. unfold Read.
  assert (Hlp : length p <> 0) by (destruct p; [congruence|discriminate]).
  assert (Hlb : length (buf r) <> 0)
    by (destruct (buf r); [congruence|discriminate]).
  remember (Datatypes.S fuel) as fuel1 eqn:Hfuel. cbn [Read_loop].
  rewrite (bool_decide_eq_false_2 _ Hlp), (bool_decide_eq_false_2 _ Hlb).
  cbn [negb]. unfold Buffer_Read.
  rewrite (bool_decide_eq_false_2 _ Hlb), go_copy_spec. fold k.
  destruct (take_drop_copied k (buf r) p) as [Ht Hd]; [lia|].
  cbn [app Nat.add]. rewrite Ht, Hd. subst fuel1.
  rewrite Read_loop_after_delivery; [reflexivity|].
  destruct (decide (length p <= length (buf r))) as [Hle|Hgt].
  - left. apply drop_ge. lia.
  - right. cbn [buf]. split; [apply drop_ge|]; lia.
Qed.

(** The turn of the loop that receives a non-empty Data frame. *)
Lemma Read_data fuel (r : RpcStreamReadWriter S) (p : bytes) pkt s' :
  p <> [] -> buf r = [] ->
  Recv (stream r) = (inr pkt, s') ->
  GetError (GetAck pkt) = "" -> GetData pkt <> [] ->
  let k := Nat.min (length p) (length (GetData pkt)) in
  Read (Datatypes.S (Datatypes.S fuel)) r p =
    Some ((take k (GetData pkt) ++ drop k p, k, None),
          mkRpcStreamReadWriter s' (drop k (GetData pkt))).
Proof.
  intros Hp Hb Hrecv Hack Hd k. unfold Read.
  assert (Hlp : length p <> 0) by (destruct p; [congruence|discriminate]).
  assert (Hld : length (GetData pkt) <> 0)
    by (destruct (GetData pkt); [congruence|discriminate]).
  remember (Datatypes.S fuel) as fuel1 eqn:Hfuel. cbn [Read_loop].
  rewrite (bool_decide_eq_false_2 _ Hlp), Hb. cbn [length].
  rewrite (bool_decide_eq_true_2 (0 = 0)) by reflexivity. cbn [negb].
  rewrite Hrecv, Hack.
  rewrite (bool_decide_eq_true_2 ("" = "")) by reflexivity. cbn [negb].
  rewrite (bool_decide_eq_false_2 _ Hld), go_copy_spec. fold k.
  destruct (take_drop_copied k (GetData pkt) p) as [Ht Hdr]; [lia|].
  cbn [buf app Nat.add]. subst fuel1.
  destruct (bool_decide_reflect (length p < length (GetData pkt))) as [Hlt|Hge].
  - replace (length p) with k by lia. rewrite Ht, Hdr.
    rewrite Read_loop_after_delivery; [reflexivity|].
    left. apply drop_ge. lia.
  - replace (length (GetData pkt)) with k by lia. rewrite Ht, Hdr.
    rewrite Read_loop_after_delivery.
    + do 3 f_equal. symmetry. apply drop_ge. lia.
    + right. split; [reflexivity|lia].
Qed.

End Tunnel_facts.

Section Tunnel_claims.
Import rpcstream.
Context {S : Type} `{RpcStream S}.

(** C6. With waitAck set, after the Init packet has been sent, exactly one
    packet is received.  An Ack with a non-empty error [e] makes
    [OpenRpcStream] fail with "remote: " followed by [e]; a packet that is not
    an Ack makes it fail with "expected ack packet"; in both cases the stream
    is closed and no read/writer is returned.  An Ack with an empty error
    makes it return a read/writer over the stream, left open. *)
Theorem OpenRpcStream_waitAck (s0 s1 s2 : S) (componentID : string)
    (pkt : RpcStreamPacket) :
  Send (init_packet componentID) s0 = (None, s1) ->
  Recv s1 = (inr pkt, s2) ->
  (forall ack, Body pkt = Some (RpcStreamPacket_Ack ack) ->
     GetError ack <> "" ->
     OpenRpcStream (inr s0) componentID true =
       ((None, Some (errors_New ("remote: " +:+ GetError ack))),
        Some (snd (Close s2))))
  /\ ((forall ack, Body pkt <> Some (RpcStreamPacket_Ack ack)) ->
     OpenRpcStream (inr s0) componentID true =
       ((None, Some (errors_New "expected ack packet")),
        Some (snd (Close s2))))
  /\ (forall ack, Body pkt = Some (RpcStreamPacket_Ack ack) ->
     GetError ack = "" ->
     OpenRpcStream (inr s0) componentID true =
       ((Some (mkRpcStreamReadWriter s2 []), None), Some s2)).
Proof.
  intros Hsend Hrecv. unfold OpenRpcStream. rewrite Hsend, Hrecv.
  repeat split.
  - intros ack Hb Hne. rewrite Hb.
    rewrite (bool_decide_eq_false_2 _ Hne). cbn [negb].
    destruct (Close s2). reflexivity.
  - intros Hb. destruct (Body pkt) as [[i|a|d]|];
      try (destruct (Close s2); reflexivity).
    destruct (Hb a). reflexivity.
  - intros ack Hb He. rewrite Hb.
    rewrite (bool_decide_eq_true_2 _ He). reflexivity.
Qed.

(** C7. [HandleRpcStream] turns down a first packet that is not an Init and
    an Init whose component id is empty.  When the getter finds neither mux
    nor error, it sends an Ack with "no server for that component" and returns
    that error without starting the nested session.  The release function the
    getter returned is run on return iff the getter returned a mux, whatever
    error came with it. *)
Theorem HandleRpcStream_acceptor `{SentinelText} {M R : Type}
    (getter : string -> option M * option R * option error)
    (serve : option M -> RpcStreamReadWriter S -> option error * S)
    (s0 s1 : S) (pkt : RpcStreamPacket) :
  Recv s0 = (inr pkt, s1) ->
  ((forall init, Body pkt <> Some (RpcStreamPacket_Init (Some init))) ->
     HandleRpcStream getter serve s0 =
       ((Some (errors_New "expected init packet"), s1), []))
  /\ (Body pkt = Some (RpcStreamPacket_Init (Some (mkRpcStreamInit ""))) ->
     HandleRpcStream getter serve s0 =
       ((Some (errors_New "invalid init packet: empty component id"), s1), []))
  /\ (forall cid rel, cid <> "" ->
     Body pkt = Some (RpcStreamPacket_Init (Some (mkRpcStreamInit cid))) ->
     getter cid = (None, rel, None) ->
     HandleRpcStream getter serve s0 =
       ((Some (errors_New "no server for that component"),
         snd (Send (ack_packet "no server for that component") s1)), []))
  /\ (forall cid mux rel err, cid <> "" ->
     Body pkt = Some (RpcStreamPacket_Init (Some (mkRpcStreamInit cid))) ->
     getter cid = (mux, Some rel, err) ->
     snd (HandleRpcStream getter serve s0) = if is_nil mux then [] else [rel])
  /\ (forall cid mux err, cid <> "" ->
     Body pkt = Some (RpcStreamPacket_Init (Some (mkRpcStreamInit cid))) ->
     getter cid = (mux, None, err) ->
     snd (HandleRpcStream getter serve s0) = []).
Proof.
  intros Hrecv. unfold HandleRpcStream. rewrite Hrecv.
  split; [|split; [|split; [|split]]].
  - intros Hb. destruct (Body pkt) as [[[i|]|a|d]|]; try reflexivity.
    destruct (Hb i). reflexivity.
  - intros ->. reflexivity.
  - intros cid rel Hcid -> Hg. cbn [ComponentId].
    rewrite (bool_decide_eq_false_2 _ Hcid), Hg. cbn.
    destruct (Send _ s1). reflexivity.
  - intros cid mux rel err Hcid -> Hg. cbn [ComponentId].
    rewrite (bool_decide_eq_false_2 _ Hcid), Hg.
    destruct mux as [m|], err as [e|]; cbn;
      destruct (Send _ s1) as [[se|] s2]; reflexivity.
  - intros cid mux err Hcid -> Hg. cbn [ComponentId].
    rewrite (bool_decide_eq_false_2 _ Hcid), Hg.
    destruct mux as [m|], err as [e|]; cbn;
      destruct (Send _ s1) as [[se|] s2]; reflexivity.
Qed.

(** C8, as the code has it. For a non-empty [p], [Write] makes one [Send] of
    a Data packet holding the whole of [p] and returns [len(p)] when the send
    succeeds and 0 with the error when it fails; for an empty [p] it sends
    nothing and returns 0 and nil. *)
Theorem Write_one_frame (r : RpcStreamReadWriter S) (p : bytes) :
  (p <> [] -> forall err s,
     Send (data_packet p) (stream r) = (err, s) ->
     Write r p =
       (match err with
        | Some e => (0, Some e)
        | None => (length p, None)
        end, mkRpcStreamReadWriter s (buf r)))
  /\ (p = [] -> Write r p = ((0, None), r)).
Proof.
  split.
  - intros Hp err s Hsend. unfold Write.
    rewrite bool_decide_eq_false_2
      by (destruct p; [congruence|discriminate]).
    rewrite Hsend. destruct err; reflexivity.
  - intros ->. reflexivity.
Qed.

(** C9. For a non-empty [p]: buffered bytes are returned first, without a
    [Recv]; with nothing buffered one packet is received, and a receive error
    or an Ack with a non-empty error ends the read with that error, a packet
    without payload is skipped, and a payload is copied into [p] with the
    rest buffered.  A read that delivers returns at once, with at least one
    and at most [len(p)] bytes. *)
Theorem Read_delivers (fuel : nat) (r : RpcStreamReadWriter S) (p : bytes) :
  p <> [] ->
  (buf r <> [] ->
     let k := Nat.min (length p) (length (buf r)) in
     Read (Datatypes.S (Datatypes.S fuel)) r p =
       Some ((take k (buf r) ++ drop k p, k, None),
             mkRpcStreamReadWriter (stream r) (drop k (buf r)))
     /\ 1 <= k <= length p)
  /\ (buf r = [] -> forall res s', Recv (stream r) = (res, s') ->
     (forall e, res = inl e ->
        Read (Datatypes.S fuel) r p =
          Some ((p, 0, Some e), mkRpcStreamReadWriter s' []))
     /\ (forall pkt, res = inr pkt -> GetError (GetAck pkt) <> "" ->
        Read (Datatypes.S fuel) r p =
          Some ((p, 0, Some (errors_New (GetError (GetAck pkt)))),
                mkRpcStreamReadWriter s' []))
     /\ (forall pkt, res = inr pkt -> GetError (GetAck pkt) = "" ->
        GetData pkt = [] ->
        Read (Datatypes.S fuel) r p = Read fuel (mkRpcStreamReadWriter s' []) p)
     /\ (forall pkt, res = inr pkt -> GetError (GetAck pkt) = "" ->
        GetData pkt <> [] ->
        let k := Nat.min (length p) (length (GetData pkt)) in
        Read (Datatypes.S (Datatypes.S fuel)) r p =
          Some ((take k (GetData pkt) ++ drop k p, k, None),
                mkRpcStreamReadWriter s' (drop k (GetData pkt)))
        /\ 1 <= k <= length p)).
Proof.
  intros Hp.
  assert (Hlp : length p <> 0) by (destruct p; [congruence|discriminate]).
  split.
  - intros Hb k. split; [apply Read_buffered; assumption|].
    assert (length (buf r) <> 0)
      by (destruct (buf r); [congruence|discriminate]).
    subst k. lia.
  - intros Hb res s' Hrecv.
    split; [|split; [|split]].
    + intros e ->. unfold Read. cbn [Read_loop].
      rewrite (bool_decide_eq_false_2 _ Hlp), Hb. cbn.
      rewrite Hrecv. rewrite ?Hb. reflexivity.
    + intros pkt -> Hack. unfold Read. cbn [Read_loop].
      rewrite (bool_decide_eq_false_2 _ Hlp), Hb. cbn.
      rewrite Hrecv, (bool_decide_eq_false_2 _ Hack). cbn.
      rewrite ?Hb. reflexivity.
    + intros pkt -> Hack Hd. unfold Read. cbn [Read_loop].
      rewrite (bool_decide_eq_false_2 _ Hlp), Hb. cbn.
      rewrite Hrecv, Hack, Hd. rewrite ?Hb. reflexivity.
    + intros pkt -> Hack Hd k. split.
      * apply Read_data; assumption.
      * assert (length (GetData pkt) <> 0)
          by (destruct (GetData pkt); [congruence|discriminate]).
        subst k. lia.
Qed.

End Tunnel_claims.

Section Tunnel_termination.
Import rpcstream.

(** The loop of [Read] goes round again only to skip a packet without
    payload: with two units of fuel it has either finished or received such a
    packet and carries on from the stream behind it. *)
Lemma Read_loop_progress {S : Type} `{RpcStream S} fuel
    (r : RpcStreamReadWriter S) filled readBuf n :
  (exists x, Read_loop (Datatypes.S (Datatypes.S fuel)) r filled readBuf n = Some x)
  \/ (exists pkt s',
        Recv (stream r) = (inr pkt, s') /\ GetData pkt = [] /\
        Read_loop (Datatypes.S (Datatypes.S fuel)) r filled readBuf n =
          Read_loop (Datatypes.S fuel) (mkRpcStreamReadWriter s' (buf r))
                    filled readBuf n).
Proof.
  remember (Datatypes.S fuel) as fuel1 eqn:Hfuel. cbn [Read_loop].
  destruct (bool_decide_reflect (length readBuf = 0)) as [Hrb|Hrb];
    [left; eauto|].
  destruct (bool_decide_reflect (length (buf r) = 0)) as [Hb|Hb]; cbn [negb].
  - destruct (bool_decide_reflect (n = 0)) as [Hn|Hn]; cbn [negb];
      [|left; eauto].
    destruct (Recv (stream r)) as [[e|pkt] s'] eqn:Hrecv; [left; eauto|].
    destruct (negb (bool_decide (GetError (GetAck pkt) = "")));
      [left; eauto|].
    destruct (bool_decide_reflect (length (GetData pkt) = 0)) as [Hd|Hd].
    + right. exists pkt, s'. repeat split. apply nil_length_inv, Hd.
    + left. rewrite go_copy_spec.
      set (k := Nat.min (length readBuf) (length (GetData pkt))).
      destruct (take_drop_copied k (GetData pkt) readBuf) as [Ht Hdr];
        [subst k; lia|].
      subst fuel1.
      destruct (bool_decide_reflect (length readBuf < length (GetData pkt)))
        as [Hlt|Hge].
      * replace (length readBuf) with k by (subst k; lia).
        rewrite Read_loop_after_delivery; [eauto|].
        left. rewrite Hdr. apply drop_ge. subst k. lia.
      * replace (length (GetData pkt)) with k by (subst k; lia).
        rewrite Read_loop_after_delivery; [eauto|].
        right. cbn [buf]. split; [apply nil_length_inv, Hb|subst k; lia].
  - left. unfold Buffer_Read. rewrite (bool_decide_eq_false_2 _ Hb).
    rewrite go_copy_spec.
    set (k := Nat.min (length readBuf) (length (buf r))).
    destruct (take_drop_copied k (buf r) readBuf) as [Ht Hdr];
      [subst k; lia|].
    subst fuel1. rewrite Read_loop_after_delivery; [eauto|].
    rewrite Hdr. cbn [buf].
    destruct (decide (length readBuf <= length (buf r))).
    + left. apply drop_ge. subst k. lia.
    + right. split; [apply drop_ge|]; subst k; lia.
Qed.

(** On a scripted stream [Read] returns: two units of fuel beyond the length
    of the script are enough. *)
Lemma Read_loop_script_returns (l : list (error + RpcStreamPacket)) :
  forall (r : RpcStreamReadWriter ScriptStream) filled readBuf n,
    incoming (stream r) = l ->
    exists x,
      Read_loop (Datatypes.S (Datatypes.S (length l))) r filled readBuf n = Some x.
Proof.
  induction l as [|x l IH]; intros r filled readBuf n Hl.
  - destruct (Read_loop_progress 0 r filled readBuf n)
      as [Hdone|(pkt & s' & Hrecv & _)]; [exact Hdone|].
    cbn in Hrecv. unfold Script_Recv in Hrecv. rewrite Hl in Hrecv.
    discriminate.
  - destruct (Read_loop_progress (length (x :: l)) r filled readBuf n)
      as [Hdone|(pkt & s' & Hrecv & _ & Heq)]; [exact Hdone|].
    rewrite Heq. cbn in Hrecv. unfold Script_Recv in Hrecv.
    rewrite Hl in Hrecv. injection Hrecv as _ <-.
    apply IH. reflexivity.
Qed.

(** X20. On a scripted stream [Read] returns within the length of the
    script plus two turns of its loop. *)
Theorem Read_script_returns (r : RpcStreamReadWriter ScriptStream) (p : bytes) :
  exists x, Read (Datatypes.S (Datatypes.S (length (incoming (stream r))))) r p = Some x.
Proof. apply Read_loop_script_returns. reflexivity. Qed.

End Tunnel_termination.

(* ================================================================== *)
(** ** The tunnel on scripted streams: closed instances *)

Section Tunnel_runs.
Import rpcstream.

(** C6 at a stream that answers the Init with the Ack of an absent
    component. *)
Lemma OpenRpcStream_waitAck_witness :
  OpenRpcStream
    (inr (mkScriptStream [inr (ack_packet "no server for that component")]
                         None [] 0))
    "absent" true
  = ((None, Some (errors_New "remote: no server for that component")),
     Some (mkScriptStream [] None [init_packet "absent"] 1)).
Proof.
  exact (proj1 (OpenRpcStream_waitAck
           (mkScriptStream [inr (ack_packet "no server for that component")]
                           None [] 0)
           (mkScriptStream [inr (ack_packet "no server for that component")]
                           None [init_packet "absent"] 0)
           (mkScriptStream [] None [init_packet "absent"] 0)
           "absent" (ack_packet "no server for that component")
           eq_refl eq_refl)
         (Some (mkRpcAck "no server for that component")) eq_refl
         ltac:(discriminate)).
Defined.

(** C7 at an Init for a component the getter does not know. *)
Lemma HandleRpcStream_acceptor_witness :
  HandleRpcStream (H0 := samples.texts) (M := unit) (R := unit)
    (fun _ => (None, None, None))
    (fun _ rw => (None, stream rw))
    (mkScriptStream [inr (init_packet "absent")] None [] 0)
  = ((Some (errors_New "no server for that component"),
      mkScriptStream [] None [ack_packet "no server for that component"] 0),
     []).
Proof.
  exact (proj1 (proj2 (proj2 (HandleRpcStream_acceptor (H0 := samples.texts)
           (M := unit) (R := unit)
           (fun _ => (None, None, None))
           (fun _ rw => (None, stream rw))
           (mkScriptStream [inr (init_packet "absent")] None [] 0)
           (mkScriptStream [] None [] 0)
           (init_packet "absent") eq_refl)))
         "absent" None ltac:(discriminate) eq_refl eq_refl).
Defined.

(** The release function runs although the getter also reported an error. *)
Lemma HandleRpcStream_releases_on_error :
  snd (HandleRpcStream (H0 := samples.texts) (M := unit) (R := string)
         (fun _ => (Some tt, Some "release", Some io_EOF))
         (fun _ rw => (None, stream rw))
         (mkScriptStream [inr (init_packet "echo")] None [] 0))
  = ["release"].
Proof. reflexivity. Qed.

(** C8 at a two-byte slice. *)
Lemma Write_one_frame_witness :
  Write (NewRpcStreamReadWriter (mkScriptStream [] None [] 0))
        ["001"%byte; "002"%byte]
  = ((2, None),
     mkRpcStreamReadWriter
       (mkScriptStream [] None [data_packet ["001"%byte; "002"%byte]] 0) []).
Proof.
  exact (proj1 (Write_one_frame
           (NewRpcStreamReadWriter (mkScriptStream [] None [] 0))
           ["001"%byte; "002"%byte])
         ltac:(discriminate) None
         (mkScriptStream [] None [data_packet ["001"%byte; "002"%byte]] 0)
         eq_refl).
Defined.

(** C8, as stated, fails for the empty slice: no Data frame is sent. *)
Lemma Write_empty_sends_no_frame :
  sent (stream (snd (Write (NewRpcStreamReadWriter (mkScriptStream [] None [] 0)) [])))
    = []
  /\ sent (stream (snd (Write (NewRpcStreamReadWriter (mkScriptStream [] None [] 0)) [])))
    <> [data_packet []].
Proof. split; [reflexivity|discriminate]. Qed.

(** C9 at three buffered bytes and a slice of two. *)
Lemma Read_delivers_witness :
  Read 2 (mkRpcStreamReadWriter (mkScriptStream [] None [] 0)
            ["001"%byte; "002"%byte; "003"%byte])
       ["000"%byte; "000"%byte]
  = Some ((["001"%byte; "002"%byte], 2, None),
          mkRpcStreamReadWriter (mkScriptStream [] None [] 0) ["003"%byte])
  /\ 1 <= 2 <= 2.
Proof.
  exact (proj1 (Read_delivers 0
           (mkRpcStreamReadWriter (mkScriptStream [] None [] 0)
              ["001"%byte; "002"%byte; "003"%byte])
           ["000"%byte; "000"%byte] ltac:(discriminate))
         ltac:(discriminate)).
Defined.

(** A read that skips an empty frame, fills [p] from the next one and
    buffers the rest; the read after it is served from the buffer. *)
Example Read_skips_then_buffers :
  Read 3 (NewRpcStreamReadWriter
            (mkScriptStream
               [inr (data_packet []);
                inr (data_packet ["001"%byte; "002"%byte; "003"%byte])]
               None [] 0))
       ["000"%byte; "000"%byte]
  = Some ((["001"%byte; "002"%byte], 2, None),
          mkRpcStreamReadWriter (mkScriptStream [] None [] 0) ["003"%byte]).
Proof. reflexivity. Qed.

End Tunnel_runs.

(* ================================================================== *)
(** ** ServerRPC: further results *)

Section ServerRPC_more.
Import srpc.

Lemma HandleCallStart_no_panic r pkt msg :
  chan_flag_ok r -> HandleCallStart r pkt <> Panics msg.
Proof.
  unfold chan_flag_ok, HandleCallStart. intros Hok.
  destruct (negb _ || negb _); [discriminate|].
  destruct (dataChClosed r) eqn:Hc; [discriminate|].
  destruct (negb _); simpl; [|discriminate].
  unfold chan_send_ready, chan_send. simpl. rewrite Hok.
  destruct (chan_has_room _); discriminate.
Qed.

Lemma HandlePacket_no_panic Validate r msg pick m :
  chan_flag_ok r -> HandlePacket Validate r msg pick <> Panics m.
Proof.
  intros Hok. unfold HandlePacket.
  destruct (Validate msg); [discriminate|].
  destruct msg as [[[b|b|b|]|]]; simpl; try discriminate.
  - apply HandleCallStart_no_panic, Hok.
  - apply HandleCallData_no_panic, Hok.
Qed.

(** What a returning handler leaves in the channel: the old queue, with at
    most the packet's payload behind it, which then found room. *)
Lemma HandleCallStart_queue r pkt e r' :
  HandleCallStart r pkt = Returns (e, r') ->
  ch_cap (dataCh r') = ch_cap (dataCh r) /\
  (ch_buf (dataCh r') = ch_buf (dataCh r) \/
   (ch_buf (dataCh r') = ch_buf (dataCh r) ++ [cs_Data pkt] /\
    length (ch_buf (dataCh r)) < ch_cap (dataCh r))).
Proof.
  unfold HandleCallStart.
  destruct (negb _ || negb _); [intros [= <- <-]; auto|].
  destruct (dataChClosed r) eqn:Hc; [intros [= <- <-]; auto|].
  destruct (negb _); simpl; [|intros [= <- <-]; auto].
  unfold chan_send_ready, chan_send, chan_has_room. simpl.
  destruct (ch_closed (dataCh r)); simpl; [discriminate|].
  destruct (bool_decide_reflect (length (ch_buf (dataCh r)) < ch_cap (dataCh r)));
    intros [= <- <-]; simpl; auto.
Qed.

Lemma HandleCallData_finish_queue r pkt e r' :
  HandleCallData_finish r pkt = Returns (e, r') ->
  ch_cap (dataCh r') = ch_cap (dataCh r) /\
  ch_buf (dataCh r') = ch_buf (dataCh r).
Proof.
  unfold HandleCallData_finish, chan_close.
  destruct (negb _); simpl.
  - destruct (ch_closed _); [discriminate|]. intros [= <- <-]. auto.
  - destruct (Complete pkt); simpl.
    + destruct (ch_closed _); [discriminate|]. intros [= <- <-]. auto.
    + intros [= <- <-]. auto.
Qed.

Lemma HandleCallData_queue r pkt pick e r' :
  HandleCallData r pkt pick = Returns (e, r') ->
  ch_cap (dataCh r') = ch_cap (dataCh r) /\
  (ch_buf (dataCh r') = ch_buf (dataCh r) \/
   (ch_buf (dataCh r') = ch_buf (dataCh r) ++ [Data pkt] /\
    length (ch_buf (dataCh r)) < ch_cap (dataCh r))).
Proof.
  unfold HandleCallData.
  destruct (dataChClosed r); [intros [= <- <-]; auto|].
  destruct (negb _).
  - unfold chan_send_ready, chan_send, chan_has_room.
    destruct (ch_closed (dataCh r)); simpl.
    + destruct (ctxDone r), pick; simpl; try discriminate;
        intros [= <- <-]; auto.
    + destruct (bool_decide_reflect
                  (length (ch_buf (dataCh r)) < ch_cap (dataCh r))) as [Hlt|Hge].
      * destruct (ctxDone r), pick; simpl;
          try (intros [= <- <-]; auto);
          intros Hf; apply HandleCallData_finish_queue in Hf as [Hc Hb];
          simpl in *; auto.
      * destruct (ctxDone r); [intros [= <- <-]; auto|discriminate].
  - intros Hf. apply HandleCallData_finish_queue in Hf as [Hc Hb]. auto.
Qed.

Lemma HandlePacket_chan_inv Validate r msg pick e r' :
  chan_inv r ->
  HandlePacket Validate r msg pick = Returns (e, r') ->
  chan_inv r'.
Proof.
  intros (Hok & Hcap & Hlen). unfold HandlePacket.
  destruct (Validate msg); [intros [= <- <-]; repeat split; assumption|].
  destruct msg as [[[b|b|b|]|]]; simpl;
    try (intros [= <- <-]; repeat split; assumption).
  - intros Hr. split; [eapply HandleCallStart_chan_flag_ok; eassumption|].
    apply HandleCallStart_queue in Hr as [Hc [Hb|[Hb Hlt]]];
      rewrite Hc, Hb, ?length_app; simpl; split; lia.
  - intros Hr. split; [eapply HandleCallData_chan_flag_ok; eassumption|].
    apply HandleCallData_queue in Hr as [Hc [Hb|[Hb Hlt]]];
      rewrite Hc, Hb, ?length_app; simpl; split; lia.
Qed.

Lemma step_chan_inv Validate r st r' :
  chan_inv r -> step Validate r st = Returns r' -> chan_inv r'.
Proof.
  intros Hinv. destruct st as [msg pick| |]; simpl.
  - destruct (HandlePacket Validate r msg pick) as [[e r1]| |] eqn:Hh;
      try discriminate.
    intros [= <-]. eapply HandlePacket_chan_inv; eassumption.
  - destruct Hinv as (Hok & Hcap & Hlen). unfold chan_recv, chan_inv, chan_flag_ok in *.
    destruct (ch_buf (dataCh r)) as [|v rest] eqn:Hb; intros [= <-]; simpl.
    + rewrite Hb. auto.
    + simpl in Hlen. repeat split; [assumption..|lia].
  - intros [= <-]. exact Hinv.
Qed.

Lemma Run_chan_inv Validate steps :
  forall r, chan_inv r -> chan_inv (Run Validate r steps).
Proof.
  induction steps as [|st steps IH]; intros r Hinv; simpl; [exact Hinv|].
  destruct (step Validate r st) as [r1| |] eqn:Hs; apply IH;
    try exact Hinv.
  eapply step_chan_inv; eassumption.
Qed.

Lemma NewServerRPC_chan_inv parentDone : chan_inv (NewServerRPC parentDone).
Proof. repeat split; simpl; lia. Qed.

(** X2. Whatever packets arrive, whenever the handler takes payloads off
    the channel and whenever the context is canceled, the data channel of a
    ServerRPC never holds more than its five payloads, and its closed flag
    tells the state of the channel. *)
Theorem dataCh_never_over_capacity Validate parentDone steps :
  length (ch_buf (dataCh (Run Validate (NewServerRPC parentDone) steps))) <= 5
  /\ ch_closed (dataCh (Run Validate (NewServerRPC parentDone) steps))
     = dataChClosed (Run Validate (NewServerRPC parentDone) steps).
Proof.
  destruct (Run_chan_inv Validate steps _ (NewServerRPC_chan_inv parentDone))
    as (Hok & _ & Hlen).
  split; [exact Hlen|exact Hok].
Qed.

(** X3. No packet makes a ServerRPC panic, after any history: it never sends
    on the channel once closed and never closes it twice. *)
Theorem HandlePacket_never_panics Validate parentDone steps msg pick m :
  HandlePacket Validate (Run Validate (NewServerRPC parentDone) steps) msg pick
    <> Panics m.
Proof.
  apply HandlePacket_no_panic.
  apply (Run_chan_inv Validate steps _ (NewServerRPC_chan_inv parentDone)).
Qed.

(** X4. Once a CallData with complete or an error has closed the channel, the
    ServerRPC is final: every later packet returns leaving it untouched, a
    CallData with ErrCompleted and a CallStart with ErrCompleted or with the
    only-once error. *)
Theorem completed_rpc_is_final Validate r msg pick :
  dataChClosed r = true ->
  exists e,
    HandlePacket Validate r msg pick = Returns (e, r) /\
    (Validate msg = None ->
       (forall b, Body msg = Some (Packet_CallData b) -> e = Some ErrCompleted) /\
       (forall b, Body msg = Some (Packet_CallStart b) ->
          e = Some ErrCompleted \/
          e = Some (errors_New "call start must be sent only once"))).
Proof.
  intros Hc. unfold HandlePacket.
  destruct (Validate msg) as [ve|] eqn:Hv.
  { eexists. split; [reflexivity|]. discriminate. }
  destruct msg as [[[b|b|b|]|]]; simpl.
  - unfold HandleCallStart. rewrite Hc.
    destruct (negb _ || negb _); eexists; (split; [reflexivity|]); intros _;
      (split; [discriminate|]); intros b' _; auto.
  - unfold HandleCallData. rewrite Hc. eexists. split; [reflexivity|].
    intros _. split; [reflexivity|discriminate].
  - eexists. split; [reflexivity|]. intros _. split; discriminate.
  - eexists. split; [reflexivity|]. intros _. split; discriminate.
  - eexists. split; [reflexivity|]. intros _. split; discriminate.
Qed.

Lemma completed_rpc_is_final_witness :
  exists e,
    HandlePacket (fun _ => None)
      (set_dataCh (set_dataChClosed samples.started_rpc true) (mkChan [] 5 true))
      (mkPacket (Some (Packet_CallData (mkCallData ["001"%byte] false false ""))))
      true
    = Returns (e, set_dataCh (set_dataChClosed samples.started_rpc true)
                             (mkChan [] 5 true)) /\
    ((fun _ : Packet => @None error)
       (mkPacket (Some (Packet_CallData (mkCallData ["001"%byte] false false ""))))
     = None ->
       (forall b,
          Body (mkPacket (Some (Packet_CallData (mkCallData ["001"%byte] false false ""))))
            = Some (Packet_CallData b) -> e = Some ErrCompleted) /\
       (forall b,
          Body (mkPacket (Some (Packet_CallData (mkCallData ["001"%byte] false false ""))))
            = Some (Packet_CallStart b) ->
          e = Some ErrCompleted \/
          e = Some (errors_New "call start must be sent only once"))).
Proof.
  apply (completed_rpc_is_final (fun _ => None)
           (set_dataCh (set_dataChClosed samples.started_rpc true)
                       (mkChan [] 5 true))).
  reflexivity.
Defined.

(** X5. Backpressure: [HandleCallData] waits exactly when the call is not
    completed, the packet carries a payload, the context is not canceled and
    the channel is full. *)
Theorem HandleCallData_blocks_iff r pkt pick :
  chan_flag_ok r ->
  (HandleCallData r pkt pick = Blocks <->
   dataChClosed r = false /\ Data pkt <> [] /\ ctxDone r = false /\
   ch_cap (dataCh r) <= length (ch_buf (dataCh r))).
Proof.
  intros Hok.
  assert (Hfin : forall r0, HandleCallData_finish r0 pkt <> Blocks).
  { intros r0. unfold HandleCallData_finish, chan_close.
    destruct (negb _); simpl.
    - destruct (ch_closed _); discriminate.
    - destruct (Complete pkt); simpl; [destruct (ch_closed _)|]; discriminate. }
  unfold HandleCallData, chan_flag_ok in *.
  destruct (dataChClosed r) eqn:Hc.
  { split; [discriminate|]. intros [? _]. discriminate. }
  destruct (bool_decide_reflect (length (Data pkt) = 0)) as [Hd|Hd]; cbn [negb].
  { split; [intros Hb; destruct (Hfin _ Hb)|].
    intros (_ & Hne & _). destruct (Data pkt); [congruence|discriminate]. }
  assert (Hne : Data pkt <> []) by (intros E; rewrite E in Hd; auto).
  unfold chan_send_ready, chan_send, chan_has_room. rewrite Hok. simpl.
  destruct (bool_decide_reflect (length (ch_buf (dataCh r)) < ch_cap (dataCh r)))
    as [Hlt|Hge].
  - split.
    + destruct (ctxDone r), pick; simpl; try discriminate;
        intros Hb; destruct (Hfin _ Hb).
    + intros (_ & _ & _ & Hfull). lia.
  - destruct (ctxDone r).
    + split; [discriminate|]. intros (_ & _ & ? & _). discriminate.
    + split; [|reflexivity]. intros _. repeat split; [assumption|lia].
Qed.

Lemma HandleCallData_blocks_iff_witness :
  HandleCallData
    (set_dataCh samples.started_rpc
       (mkChan [["001"%byte]; ["002"%byte]; ["003"%byte]; ["004"%byte]; ["005"%byte]]
               5 false))
    (mkCallData ["006"%byte] false false "") true = Blocks.
Proof.
  apply (proj2 (HandleCallData_blocks_iff
           (set_dataCh samples.started_rpc
              (mkChan [["001"%byte]; ["002"%byte]; ["003"%byte]; ["004"%byte];
                       ["005"%byte]] 5 false))
           (mkCallData ["006"%byte] false false "") true eq_refl)).
  repeat split; [discriminate|simpl; lia].
Defined.

(** X6. A canceled context frees the read pump: with the context canceled
    [HandleCallData] never waits, and when the channel is full it returns
    context.Canceled leaving the ServerRPC as it was. *)
Theorem canceled_context_unblocks r pkt pick :
  chan_flag_ok r -> ctxDone r = true ->
  HandleCallData r pkt pick <> Blocks /\
  (dataChClosed r = false -> Data pkt <> [] ->
   ch_cap (dataCh r) <= length (ch_buf (dataCh r)) ->
   HandleCallData r pkt pick = Returns (Some context_Canceled, r)).
Proof.
  intros Hok Hdone.
  assert (Hfin : forall r0, HandleCallData_finish r0 pkt <> Blocks).
  { intros r0. unfold HandleCallData_finish, chan_close.
    destruct (negb _); simpl.
    - destruct (ch_closed _); discriminate.
    - destruct (Complete pkt); simpl; [destruct (ch_closed _)|]; discriminate. }
  unfold HandleCallData, chan_flag_ok in *. rewrite Hdone. split.
  - destruct (dataChClosed r); [discriminate|].
    destruct (negb _); [|apply Hfin].
    unfold chan_send. rewrite Hok.
    destruct (chan_send_ready _); [|discriminate].
    destruct pick; simpl; [apply Hfin|discriminate].
  - intros Hc Hne Hfull. rewrite Hc.
    rewrite bool_decide_eq_false_2
      by (destruct (Data pkt); [congruence|discriminate]).
    cbn [negb]. unfold chan_send_ready, chan_has_room. rewrite Hok, Hc.
    rewrite bool_decide_eq_false_2 by lia. reflexivity.
Qed.

Lemma canceled_context_unblocks_witness :
  HandleCallData (ctxCancel samples.started_rpc)
      (mkCallData ["001"%byte] false false "") false
    <> Blocks.
Proof.
  apply (proj1 (canceled_context_unblocks (ctxCancel samples.started_rpc)
                  (mkCallData ["001"%byte] false false "") false
                  eq_refl eq_refl)).
Defined.

End ServerRPC_more.

Section ServerRPC_order.
Import srpc.

Lemma HandleCallData_payload r d z pick :
  chan_flag_ok r -> dataChClosed r = false -> ctxDone r = false ->
  d <> [] -> length (ch_buf (dataCh r)) < ch_cap (dataCh r) ->
  HandleCallData r (mkCallData d z false "") pick =
    Returns (None, set_dataCh r (mkChan (ch_buf (dataCh r) ++ [d])
                                        (ch_cap (dataCh r)) false)).
Proof.
  unfold chan_flag_ok. intros Hok Hc Hdone Hd Hroom.
  unfold HandleCallData. rewrite Hc, Hdone. cbn [Data].
  rewrite bool_decide_eq_false_2 by (destruct d; [congruence|discriminate]).
  cbn [negb]. unfold chan_send_ready, chan_has_room, chan_send.
  rewrite Hok, Hc. rewrite bool_decide_eq_true_2 by exact Hroom.
  reflexivity.
Qed.

(** X7. Order preservation on the server: payloads that arrive while the
    call is open, the context live and the channel has room are queued behind
    what is already there, in the order of arrival, and nothing else about
    the ServerRPC changes. *)
Theorem payloads_queued_in_order Validate (z : bool) (ds : list (bytes * bool)) :
  forall r,
    (forall d, Validate (fst (payload_packet z d)) = None) ->
    chan_flag_ok r -> dataChClosed r = false -> ctxDone r = false ->
    Forall (fun d => fst d <> []) ds ->
    length (ch_buf (dataCh r)) + length ds <= ch_cap (dataCh r) ->
    HandlePackets Validate r (map (payload_packet z) ds) =
      set_dataCh r (mkChan (ch_buf (dataCh r) ++ map fst ds)
                           (ch_cap (dataCh r)) false).
Proof.
  induction ds as [|d ds IH]; intros r HV Hok Hc Hdone Hne Hlen.
  - simpl. rewrite app_nil_r. unfold chan_flag_ok, set_dataCh in *.
    destruct r as [a b c [buf cap cl] e f g]. simpl in *. congruence.
  - inversion Hne as [|? ? Hd Hrest]; subst. simpl in Hlen.
    cbn [map HandlePackets].
    assert (Hstep :
      HandlePacket Validate r (fst (payload_packet z d)) (snd (payload_packet z d))
      = Returns (None, set_dataCh r (mkChan (ch_buf (dataCh r) ++ [fst d])
                                            (ch_cap (dataCh r)) false))).
    { unfold HandlePacket. rewrite HV. cbn [payload_packet fst snd Body].
      apply HandleCallData_payload; assumption || lia. }
    destruct (payload_packet z d) as [msg pk]. cbn [fst snd] in Hstep.
    rewrite Hstep.
    rewrite IH; try assumption.
    + cbn. rewrite <- app_assoc. reflexivity.
    + unfold chan_flag_ok. cbn. congruence.
    + cbn. rewrite length_app. simpl. lia.
Qed.

Lemma payloads_queued_in_order_witness :
  HandlePackets (fun _ => None) samples.started_rpc
    (map (payload_packet false) [(["001"%byte], true); (["002"%byte], false)])
  = set_dataCh samples.started_rpc
      (mkChan ([] ++ map fst [(["001"%byte], true); (["002"%byte], false)])
              5 false).
Proof.
  apply (payloads_queued_in_order (fun _ => None) false
           [(["001"%byte], true); (["002"%byte], false)] samples.started_rpc).
  - reflexivity.
  - reflexivity.
  - reflexivity.
  - reflexivity.
  - repeat constructor; discriminate.
  - simpl. lia.
Defined.

(** X8. An error in a CallData ends the client's side whatever its complete
    flag says: the payload of the packet, if any, is queued first, the channel
    is closed, and the error is kept as the client's error. *)
Theorem CallData_error_completes r pkt pick :
  chan_flag_ok r -> dataChClosed r = false -> ctxDone r = false ->
  length (ch_buf (dataCh r)) < ch_cap (dataCh r) ->
  Error pkt <> "" ->
  HandleCallData r pkt pick =
    Returns (None,
      mkServerRPC false (service r) (method r)
        (mkChan (ch_buf (dataCh r) ++
                   (if bool_decide (length (Data pkt) = 0) then [] else [Data pkt]))
                (ch_cap (dataCh r)) true)
        true (Some (errors_New (Error pkt))) (log r)).
Proof.
  unfold chan_flag_ok. intros Hok Hc Hdone Hroom He.
  assert (Hel : String.length (Error pkt) <> 0)
    by (destruct (Error pkt); [congruence|discriminate]).
  unfold HandleCallData. rewrite Hc, Hdone.
  destruct (bool_decide (length (Data pkt) = 0)); cbn [negb].
  - unfold HandleCallData_finish.
    rewrite (bool_decide_eq_false_2 _ Hel). cbn.
    unfold chan_close. rewrite Hok, Hc, app_nil_r.
    unfold set_dataCh, set_dataChClosed, set_clientErr. cbn.
    rewrite Hdone. reflexivity.
  - unfold chan_send_ready, chan_has_room, chan_send.
    rewrite Hok, Hc. rewrite bool_decide_eq_true_2 by exact Hroom. cbn.
    unfold HandleCallData_finish.
    rewrite (bool_decide_eq_false_2 _ Hel).
    unfold set_dataCh, set_dataChClosed, set_clientErr. cbn.
    rewrite Hdone. reflexivity.
Qed.

Lemma CallData_error_completes_witness :
  HandleCallData samples.started_rpc
    (mkCallData ["001"%byte] false false "boom") true
  = Returns (None,
      mkServerRPC false "echo.Echoer" "Echo"
        (mkChan ([] ++ [["001"%byte]]) 5 true)
        true (Some (errors_New "boom")) [EvGoInvokeRPC]).
Proof.
  apply (CallData_error_completes samples.started_rpc
           (mkCallData ["001"%byte] false false "boom") true).
  - reflexivity.
  - reflexivity.
  - reflexivity.
  - simpl. lia.
  - discriminate.
Defined.

Lemma writer_closes_app l1 l2 :
  writer_closes (l1 ++ l2) = writer_closes l1 + writer_closes l2.
Proof. unfold writer_closes. rewrite List.filter_app, length_app. reflexivity. Qed.

Lemma invokeRPC_log `{SentinelText} mux r :
  exists pkt,
    log (invokeRPC mux r) =
      strm_log (snd (mux (service r) (method r) (NewRPCStream r)))
        ++ [EvWriterMsgSend pkt; EvCtxCancel; EvWriterClose]
    /\ service (invokeRPC mux r) = service r.
Proof.
  unfold invokeRPC.
  destruct (mux (service r) (method r) (NewRPCStream r)) as [[ok err] strm].
  eexists. simpl. rewrite <- !app_assoc. split; reflexivity.
Qed.

(** X9. For a call that named its service, the writer is closed exactly once
    between [invokeRPC] and [Close], in whichever order they run, as long as
    the handler does not close it itself: [Close] leaves the writer to
    [invokeRPC]. *)
Theorem writer_closed_once `{SentinelText} (mux : Mux) (r : ServerRPC) :
  service r <> "" ->
  (forall s m strm,
     writer_closes (strm_log (snd (mux s m strm))) = writer_closes (strm_log strm)) ->
  writer_closes (log (ServerRPC_Close (invokeRPC mux r))) = S (writer_closes (log r))
  /\ writer_closes (log (invokeRPC mux (ServerRPC_Close r))) = S (writer_closes (log r)).
Proof.
  intros Hs Hmux. split.
  - destruct (invokeRPC_log mux r) as (pkt & Hlog & Hsvc).
    unfold ServerRPC_Close. cbn [service ctxCancel emit].
    rewrite Hsvc, (bool_decide_eq_false_2 _ Hs). cbn [log ctxCancel emit].
    rewrite Hlog, !writer_closes_app, Hmux. unfold writer_closes. cbn. lia.
  - destruct (invokeRPC_log mux (ServerRPC_Close r)) as (pkt & Hlog & Hsvc).
    rewrite Hlog, writer_closes_app, Hmux. cbn [NewRPCStream strm_log].
    unfold ServerRPC_Close. cbn [service ctxCancel emit].
    rewrite (bool_decide_eq_false_2 _ Hs). cbn [log ctxCancel emit].
    rewrite writer_closes_app. unfold writer_closes. cbn. lia.
Qed.

Lemma writer_closed_once_witness :
  writer_closes (log (ServerRPC_Close
     (invokeRPC (H := samples.texts) (fun _ _ strm => ((true, None), strm))
                samples.started_rpc)))
    = S (writer_closes (log samples.started_rpc))
  /\ writer_closes (log (invokeRPC (H := samples.texts)
       (fun _ _ strm => ((true, None), strm))
       (ServerRPC_Close samples.started_rpc)))
    = S (writer_closes (log samples.started_rpc)).
Proof.
  apply (writer_closed_once (H := samples.texts)
           (fun _ _ strm => ((true, None), strm)) samples.started_rpc).
  - vm_compute. discriminate.
  - intros s m strm. reflexivity.
Defined.

(** X10. A call that named a method but no service is taken by [Close] for a
    call that never started: after [invokeRPC] has closed the writer, [Close]
    closes it a second time. *)
Theorem Close_closes_again_without_service `{SentinelText} (mux : Mux) (r : ServerRPC) :
  service r = "" ->
  (forall s m strm,
     writer_closes (strm_log (snd (mux s m strm))) = writer_closes (strm_log strm)) ->
  writer_closes (log (ServerRPC_Close (invokeRPC mux r)))
    = S (S (writer_closes (log r))).
Proof.
  intros Hs Hmux.
  destruct (invokeRPC_log mux r) as (pkt & Hlog & Hsvc).
  unfold ServerRPC_Close. cbn [service ctxCancel emit].
  rewrite Hsvc, Hs.
  rewrite (bool_decide_eq_true_2 ("" = "")) by reflexivity.
  cbn [log ctxCancel emit].
  rewrite Hlog, !writer_closes_app, Hmux. unfold writer_closes. cbn. lia.
Qed.

Lemma Close_closes_again_without_service_witness :
  writer_closes (log (ServerRPC_Close
     (invokeRPC (H := samples.texts) (fun _ _ strm => ((true, None), strm))
        (emit (set_start (NewServerRPC false) "Echo" "") EvGoInvokeRPC))))
  = S (S (writer_closes
            (log (emit (set_start (NewServerRPC false) "Echo" "") EvGoInvokeRPC)))).
Proof.
  apply (Close_closes_again_without_service (H := samples.texts)
           (fun _ _ strm => ((true, None), strm))
           (emit (set_start (NewServerRPC false) "Echo" "") EvGoInvokeRPC)).
  - reflexivity.
  - intros s m strm. reflexivity.
Defined.

End ServerRPC_order.

(* ================================================================== *)
(** ** Messages and MsgStream: further results *)

Section Message_more.
Import srpc.
Existing Instance samples.Loopback_rw.

Lemma go_copy_same_length (dst src : bytes) :
  length dst = length src -> go_copy dst src = (src, length src).
Proof.
  intros Hl. unfold go_copy. rewrite Hl, Nat.min_id.
  rewrite take_ge by lia. rewrite drop_ge by lia.
  rewrite app_nil_r. reflexivity.
Qed.

Lemma RawMessage_MarshalVT_data (m : RawMessage) :
  RawMessage_MarshalVT m = (data m, None).
Proof.
  unfold RawMessage_MarshalVT. destruct (copy m); cbn [negb]; [|reflexivity].
  rewrite go_copy_same_length by apply length_replicate. reflexivity.
Qed.

Lemma SetData_data (m : RawMessage) (d : bytes) :
  SetData m d = mkRawMessage d (copy m).
Proof.
  unfold SetData. destruct (copy m); [|reflexivity].
  rewrite go_copy_same_length by apply length_replicate. reflexivity.
Qed.

(** X11. A RawMessage carries bytes unchanged, copying or not: unmarshalling
    never fails, the bytes unmarshalled are the bytes [GetData] and
    [MarshalVT] give back, and the copy mode of the message stays. *)
Theorem RawMessage_round_trip (m : RawMessage) (d : bytes) :
  fst (UnmarshalVT d m) = None
  /\ GetData (snd (UnmarshalVT d m)) = d
  /\ MarshalVT (snd (UnmarshalVT d m)) = (d, None)
  /\ copy (snd (UnmarshalVT d m)) = copy m.
Proof.
  cbn [UnmarshalVT MarshalVT RawMessage_Message]. unfold RawMessage_UnmarshalVT.
  cbn [fst snd]. rewrite RawMessage_MarshalVT_data, SetData_data. repeat split.
Qed.

(** X12. What [MsgRecv] decodes is what [MsgSend] encoded, whenever the
    read-writer hands the written bytes back: a RawMessage sent on a live
    stream arrives with the same bytes, an empty message included. *)
Theorem MsgSend_MsgRecv_round_trip {W : Type} `{MsgStreamRw W}
    (r : MsgStream W) (m m0 : RawMessage) (w w1 w2 : W) :
  ctx_Done r w = false ->
  WriteCallData (GetData m) false None w = (None, w1) ->
  ReadOne w1 = ((GetData m, None), w2) ->
  MsgSend r m w = (None, w1)
  /\ MsgRecv r m0 w1 = ((None, mkRawMessage (GetData m) (copy m0)), w2).
Proof.
  intros Hd Hw Hr. split.
  - unfold MsgSend. rewrite Hd.
    cbn [MarshalVT RawMessage_Message]. rewrite RawMessage_MarshalVT_data.
    exact Hw.
  - unfold MsgRecv. rewrite Hr.
    cbn [UnmarshalVT RawMessage_Message]. unfold RawMessage_UnmarshalVT.
    rewrite SetData_data. reflexivity.
Qed.

Lemma MsgSend_MsgRecv_round_trip_witness :
  MsgSend (NewMsgStream (fun _ => false) None) (NewRawMessage [] true)
          (samples.mkLoopback [])
    = (None, samples.mkLoopback [[]])
  /\ MsgRecv (NewMsgStream (fun _ => false) None)
             (NewRawMessage ["007"%byte] false) (samples.mkLoopback [[]])
    = ((None, mkRawMessage (GetData (NewRawMessage [] true)) false),
       samples.mkLoopback []).
Proof.
  apply (MsgSend_MsgRecv_round_trip (NewMsgStream (fun _ => false) None)
           (NewRawMessage [] true) (NewRawMessage ["007"%byte] false)
           (samples.mkLoopback []) (samples.mkLoopback [[]])
           (samples.mkLoopback [])).
  - reflexivity.
  - reflexivity.
  - reflexivity.
Defined.

(** X13. [MsgSend] fails fast: on a canceled context it returns
    context.Canceled, and when marshalling fails it returns that error; in
    both cases nothing is written, whatever the message type. *)
Theorem MsgSend_fails_without_writing {W M : Type} `{MsgStreamRw W} `{Message M}
    (r : MsgStream W) (msg : M) (w : W) :
  ctx_Done r w = true \/ snd (MarshalVT msg) <> None ->
  snd (MsgSend r msg w) = w
  /\ fst (MsgSend r msg w) =
       if ctx_Done r w then Some context_Canceled else snd (MarshalVT msg).
Proof.
  intros Hcase. unfold MsgSend.
  destruct (ctx_Done r w); [split; reflexivity|].
  destruct Hcase as [Hd|He]; [discriminate|].
  destruct (MarshalVT msg) as [msgData [e|]]; [split; reflexivity|].
  destruct He. reflexivity.
Qed.

Lemma MsgSend_fails_without_writing_witness :
  snd (MsgSend (NewMsgStream (fun _ => true) None) (NewRawMessage ["001"%byte] false)
               (samples.mkLoopback []))
    = samples.mkLoopback []
  /\ fst (MsgSend (NewMsgStream (fun _ => true) None)
                  (NewRawMessage ["001"%byte] false) (samples.mkLoopback []))
    = if ctx_Done (NewMsgStream (fun _ => true) None) (samples.mkLoopback [])
      then Some context_Canceled
      else snd (MarshalVT (NewRawMessage ["001"%byte] false)).
Proof.
  apply (MsgSend_fails_without_writing (NewMsgStream (fun _ => true) None)
           (NewRawMessage ["001"%byte] false) (samples.mkLoopback [])).
  left. reflexivity.
Defined.

(** [MsgRecv] passes on the error of [ReadOne] and then leaves the
    message as it was: end of stream is never decoded into a message. *)
Theorem MsgRecv_error_keeps_message {W M : Type} `{MsgStreamRw W} `{Message M}
    (r : MsgStream W) (msg : M) (w w' : W) (d : bytes) (e : error) :
  ReadOne w = ((d, Some e), w') ->
  MsgRecv r msg w = ((Some e, msg), w').
Proof. intros Hr. unfold MsgRecv. rewrite Hr. reflexivity. Qed.

Lemma MsgRecv_error_keeps_message_witness :
  MsgRecv (NewMsgStream (fun _ => false) None) (NewRawMessage ["007"%byte] true)
          (samples.mkLoopback [])
  = ((Some io_EOF, NewRawMessage ["007"%byte] true), samples.mkLoopback []).
Proof.
  apply (MsgRecv_error_keeps_message (NewMsgStream (fun _ => false) None)
           (NewRawMessage ["007"%byte] true) (samples.mkLoopback [])
           (samples.mkLoopback []) [] io_EOF).
  reflexivity.
Defined.

End Message_more.

(* ================================================================== *)
(** ** CommonRPC: further results *)

Section CommonRPC_more.
Import commonrpc.

Lemma end_ended {A : Type} (p : Pushable A) err : ended (end_ p err) = true.
Proof. unfold end_. destruct (ended p) eqn:He; [exact He|reflexivity]. Qed.

Lemma end_keeps_items {A : Type} (p : Pushable A) err :
  items (end_ p err) = items p.
Proof. unfold end_. destruct (ended p); reflexivity. Qed.

Lemma push_ended {A : Type} (p : Pushable A) v :
  ended p = true -> push p v = p.
Proof. unfold push. intros ->. reflexivity. Qed.

Lemma end_again {A : Type} (p : Pushable A) err :
  ended p = true -> end_ p err = p.
Proof. unfold end_. intros ->. reflexivity. Qed.

Lemma close_ended r err :
  ended (_source (close r err)) = true /\
  ended (_rpcDataSource (close r err)) = true.
Proof. unfold close. cbn. split; apply end_ended. Qed.

(** X14. [close] is idempotent: a closed CommonRPC has both queues ended,
    and closing it again, with any error, changes nothing; in particular the
    first error stays and no second CallCancel is written. *)
Theorem close_idempotent r err err' :
  close (close r err) err' = close r err
  /\ ended (_source (close r err)) = true
  /\ ended (_rpcDataSource (close r err)) = true.
Proof.
  destruct (close_ended r err) as [Hs Hd]. split; [|split; assumption].
  unfold close at 1. unfold writeCallCancel, writePacket, end_rpcDataSource.
  cbn [_source _rpcDataSource service method].
  rewrite (push_ended _ _ Hs), (end_again _ _ Hd), (end_again _ _ Hs).
  destruct (close r err). reflexivity.
Qed.

Lemma pushRpcData_source r d z : _source (pushRpcData r d z) = _source r.
Proof.
  unfold pushRpcData.
  destruct z, d as [d|]; try (destruct (bool_decide (length d = 0)));
    reflexivity.
Qed.

Lemma handleCallData_source r b :
  _source (snd (handleCallData r b)) = _source r.
Proof.
  unfold handleCallData.
  destruct (negb _ || negb _); [reflexivity|].
  destruct (negb _); [apply pushRpcData_source|].
  destruct (complete b); apply pushRpcData_source.
Qed.

Lemma handlePacket_throw r packet msg r' :
  handlePacket r packet = (inl msg, r') ->
  msg <> ""
  /\ ended (_source r') = true
  /\ ended (_rpcDataSource r') = true
  /\ (ended (_source r) = false ->
      items (_source r') = items (_source r) ++ [mkPacket (Some (callCancel true))]).
Proof.
  unfold handlePacket.
  pose proof (handleCallData_source r) as Hsrc.
  assert (Hclose : forall r0 e,
            _source r0 = _source r ->
            ended (_source r) = false ->
            items (_source (close r0 e)) =
              items (_source r) ++ [mkPacket (Some (callCancel true))]).
  { intros r0 e Hr0 He. unfold close, writeCallCancel, writePacket. cbn.
    rewrite end_keeps_items, Hr0. unfold push. rewrite He. reflexivity. }
  destruct (body packet) as [[b|b|b|]|] eqn:Hb; try discriminate.
  - cbn. destruct (bool_decide_reflect
      ("unexpected call start: " +:+ rpcService b +:+ "/" +:+ rpcMethod b = ""))
      as [He|He]; [discriminate He|].
    intros [= <- <-]. destruct (close_ended r (Some
      ("unexpected call start: " +:+ rpcService b +:+ "/" +:+ rpcMethod b)))
      as [Hs Hd].
    repeat split; try assumption. apply Hclose. reflexivity.
  - specialize (Hsrc b).
    destruct (handleCallData r b) as [[e|[]] r1] eqn:Hh; [|discriminate].
    cbn [snd] in Hsrc. intros [= <- <-].
    set (asError := if bool_decide (e = "") then "error handling packet" else e).
    destruct (close_ended r1 (Some asError)) as [Hs Hd].
    repeat split; try assumption.
    + subst asError. destruct (bool_decide_reflect (e = "")); [discriminate|assumption].
    + apply Hclose. exact Hsrc.
Qed.

(** X15. An error thrown while a packet is handled closes the call: when
    [handlePacket] throws, the message of the error is not empty, both queues
    are ended, and unless the outgoing queue had ended before, a CallCancel
    packet is the last thing in it. *)
Theorem handlePacket_throw_closes r packet msg r' :
  handlePacket r packet = (inl msg, r') ->
  msg <> ""
  /\ ended (_source r') = true
  /\ ended (_rpcDataSource r') = true
  /\ (ended (_source r) = false ->
      items (_source r') = items (_source r) ++ [mkPacket (Some (callCancel true))]).
Proof. apply handlePacket_throw. Qed.

Lemma handlePacket_throw_closes_witness :
  "call start must be sent before call data" <> ""
  /\ ended (_source (close new_CommonRPC
                       (Some "call start must be sent before call data"))) = true
  /\ ended (_rpcDataSource (close new_CommonRPC
                       (Some "call start must be sent before call data"))) = true
  /\ (ended (_source new_CommonRPC) = false ->
      items (_source (close new_CommonRPC
                        (Some "call start must be sent before call data")))
        = items (_source new_CommonRPC) ++ [mkPacket (Some (callCancel true))]).
Proof.
  apply (handlePacket_throw_closes new_CommonRPC
           (mkPacket (Some (callData (mkCallData (Some ["001"%byte]) false false ""))))).
  reflexivity.
Defined.

Lemma pushRpcData_written r d :
  ended (_rpcDataSource r) = false ->
  items (_rpcDataSource (pushRpcData r (Some d) (bool_decide (length d = 0))))
    = items (_rpcDataSource r) ++ [d]
  /\ ended (_rpcDataSource (pushRpcData r (Some d) (bool_decide (length d = 0))))
    = false
  /\ _source (pushRpcData r (Some d) (bool_decide (length d = 0))) = _source r
  /\ service (pushRpcData r (Some d) (bool_decide (length d = 0))) = service r
  /\ method (pushRpcData r (Some d) (bool_decide (length d = 0))) = method r.
Proof.
  intros He. unfold pushRpcData, push. rewrite He.
  destruct (bool_decide_reflect (length d = 0)) as [Hd|Hd]; cbn.
  - rewrite (nil_length_inv _ Hd). repeat split.
  - repeat split.
Qed.

(** X16. Order preservation between two TypeScript ends: payloads written
    with [writeCallData] and handled by a started receiver whose data queue
    is open arrive in the order written and as written, empty ones included;
    no packet is answered and the queue stays open. *)
Theorem payloads_delivered_in_order (ds : list bytes) :
  forall r,
    truthy (service r) = true -> truthy (method r) = true ->
    ended (_rpcDataSource r) = false ->
    let r' :=
      fold_left
        (fun r d =>
           snd (handleCallData r (writeCallData_packet (Some d) None None)))
        ds r in
    items (_rpcDataSource r') = items (_rpcDataSource r) ++ ds
    /\ ended (_rpcDataSource r') = false
    /\ _source r' = _source r.
Proof.
  induction ds as [|d ds IH]; intros r Hs Hm He.
  - cbn. rewrite app_nil_r. auto.
  - cbn [fold_left].
    destruct (pushRpcData_written r d He) as (Hi & Hen & Hso & Hsv & Hme).
    assert (Hstep :
      snd (handleCallData r (writeCallData_packet (Some d) None None))
      = pushRpcData r (Some d) (bool_decide (length d = 0))).
    { unfold handleCallData. rewrite Hs, Hm. reflexivity. }
    rewrite Hstep.
    destruct (IH (pushRpcData r (Some d) (bool_decide (length d = 0))))
      as (Hi' & Hen' & Hso'); try congruence.
    cbn zeta. rewrite Hi', Hi, Hso', Hso, <- app_assoc. auto.
Qed.

Lemma payloads_delivered_in_order_witness :
  let r' :=
    fold_left
      (fun r d =>
         snd (handleCallData r (writeCallData_packet (Some d) None None)))
      [["001"%byte]; []; ["002"%byte]]
      (mkCommonRPC pushable pushable (Some "echo.Echoer") (Some "Echo")) in
  items (_rpcDataSource r')
    = items (_rpcDataSource
        (mkCommonRPC pushable pushable (Some "echo.Echoer") (Some "Echo")))
      ++ [["001"%byte]; []; ["002"%byte]]
  /\ ended (_rpcDataSource r') = false
  /\ _source r'
     = _source (mkCommonRPC pushable pushable (Some "echo.Echoer") (Some "Echo")).
Proof.
  apply (payloads_delivered_in_order [["001"%byte]; []; ["002"%byte]]
           (mkCommonRPC pushable pushable (Some "echo.Echoer") (Some "Echo")));
    reflexivity.
Defined.

Lemma pushRpcData_ended r d z :
  ended (_rpcDataSource r) = true -> pushRpcData r d z = r.
Proof.
  intros He. unfold pushRpcData.
  destruct z, d as [d|]; try (destruct (bool_decide (length d = 0)));
    cbn [negb]; rewrite ?(push_ended _ _ He); destruct r; reflexivity.
Qed.

(** X17. After the end of the remote's data, by complete or by an error, a
    started CommonRPC drops every further CallData without a word: nothing is
    thrown, nothing is queued and the recorded end stays. *)
Theorem handleCallData_after_end r packet :
  truthy (service r) = true -> truthy (method r) = true ->
  ended (_rpcDataSource r) = true ->
  handleCallData r packet = (inr tt, r).
Proof.
  intros Hs Hm He. unfold handleCallData. rewrite Hs, Hm. cbn [negb orb].
  rewrite (pushRpcData_ended _ _ _ He). unfold end_rpcDataSource.
  rewrite (end_again _ _ He), (end_again _ _ He).
  destruct r as [src ds sv me]. cbn.
  destruct (negb _); [reflexivity|]. destruct (complete packet); reflexivity.
Qed.

Lemma handleCallData_after_end_witness :
  handleCallData
    (mkCommonRPC pushable (mkPushable [["001"%byte]] true None)
                 (Some "echo.Echoer") (Some "Echo"))
    (mkCallData (Some ["002"%byte]) false false "late")
  = (inr tt,
     mkCommonRPC pushable (mkPushable [["001"%byte]] true None)
                 (Some "echo.Echoer") (Some "Echo")).
Proof.
  apply (handleCallData_after_end
           (mkCommonRPC pushable (mkPushable [["001"%byte]] true None)
                        (Some "echo.Echoer") (Some "Echo"))
           (mkCallData (Some ["002"%byte]) false false "late"));
    reflexivity.
Defined.

Lemma writeCallData_items r d c e :
  ended (_source r) = false ->
  items (_source (writeCallData r d c e)) =
    items (_source r) ++ [mkPacket (Some (callData (writeCallData_packet d c e)))]
  /\ ended (_source (writeCallData r d c e)) = false
  /\ _rpcDataSource (writeCallData r d c e) = _rpcDataSource r.
Proof.
  intros He. unfold writeCallData, writePacket, push. rewrite He. cbn. auto.
Qed.

Lemma fold_writeCallData ds :
  forall r,
    ended (_source r) = false ->
    let r' := fold_left (fun r d => writeCallData r (Some d) None None) ds r in
    items (_source r') =
      items (_source r) ++
      map (fun d => mkPacket (Some (callData
             (mkCallData (Some d) (bool_decide (length d = 0)) false "")))) ds
    /\ ended (_source r') = false
    /\ _rpcDataSource r' = _rpcDataSource r.
Proof.
  induction ds as [|d ds IH]; intros r He.
  - cbn. rewrite app_nil_r. auto.
  - cbn [fold_left map].
    destruct (writeCallData_items r (Some d) None None He) as (Hi & Hen & Hd).
    destruct (IH _ Hen) as (Hi' & Hen' & Hd').
    cbn zeta in *. rewrite Hi', Hi, Hd', Hd, <- app_assoc. auto.
Qed.

(** X18. [writeCallDataFromSource] on an open outgoing queue: the payloads of
    the source go out in order, one CallData each, flagged dataIsZero exactly
    when empty and never complete; if the source ends, exactly one packet
    follows, the half-close with complete set and no data; if the source
    throws, a CallCancel follows instead and both queues are ended. *)
Theorem writeCallDataFromSource_packets r (ds : list bytes) (thrown : option string) :
  ended (_source r) = false ->
  items (_source (writeCallDataFromSource r ds thrown)) =
    items (_source r)
    ++ map (fun d => mkPacket (Some (callData
              (mkCallData (Some d) (bool_decide (length d = 0)) false "")))) ds
    ++ [match thrown with
        | None => mkPacket (Some (callData (mkCallData (Some []) false true "")))
        | Some _ => mkPacket (Some (callCancel true))
        end]
  /\ (thrown = None ->
      ended (_source (writeCallDataFromSource r ds thrown)) = false /\
      _rpcDataSource (writeCallDataFromSource r ds thrown) = _rpcDataSource r)
  /\ (thrown <> None ->
      ended (_source (writeCallDataFromSource r ds thrown)) = true /\
      ended (_rpcDataSource (writeCallDataFromSource r ds thrown)) = true).
Proof.
  intros He. unfold writeCallDataFromSource.
  destruct (fold_writeCallData ds r He) as (Hi & Hen & Hd). cbn zeta in *.
  set (r1 := fold_left (fun r d => writeCallData r (Some d) None None) ds r) in *.
  destruct thrown as [err|].
  - split; [|split; [discriminate|]].
    + unfold close, writeCallCancel, writePacket. cbn.
      rewrite end_keeps_items. unfold push. rewrite Hen. cbn.
      rewrite Hi, <- app_assoc. reflexivity.
    + intros _. apply close_ended.
  - destruct (writeCallData_items r1 None (Some true) None Hen) as (Hi1 & Hen1 & Hd1).
    split; [|split; [|intros Hn; destruct Hn; reflexivity]].
    + rewrite Hi1, Hi, <- app_assoc. reflexivity.
    + intros _. split; [exact Hen1|congruence].
Qed.

Lemma writeCallDataFromSource_packets_witness :
  items (_source (writeCallDataFromSource new_CommonRPC [["001"%byte]; []] None)) =
    items (_source new_CommonRPC)
    ++ map (fun d => mkPacket (Some (callData
              (mkCallData (Some d) (bool_decide (length d = 0)) false ""))))
           [["001"%byte]; []]
    ++ [mkPacket (Some (callData (mkCallData (Some []) false true "")))]
  /\ (@None string = None ->
      ended (_source (writeCallDataFromSource new_CommonRPC [["001"%byte]; []] None))
        = false /\
      _rpcDataSource (writeCallDataFromSource new_CommonRPC [["001"%byte]; []] None)
        = _rpcDataSource new_CommonRPC)
  /\ (@None string <> None ->
      ended (_source (writeCallDataFromSource new_CommonRPC [["001"%byte]; []] None))
        = true /\
      ended (_rpcDataSource
               (writeCallDataFromSource new_CommonRPC [["001"%byte]; []] None))
        = true).
Proof.
  apply (writeCallDataFromSource_packets new_CommonRPC [["001"%byte]; []] None).
  reflexivity.
Defined.

Lemma close_start_finally r err : close_finally (close_start r) err = close r err.
Proof. reflexivity. Qed.

(** [handlePacket] is its [try] block followed, on a throw, by a [close]
    with the error it rethrows. *)
Lemma handlePacket_try_catch r packet :
  handlePacket r packet =
    match handlePacket_try r packet with
    | (inl msg, r) =>
        (inl (if bool_decide (msg = "") then "error handling packet" else msg),
         close r (Some (if bool_decide (msg = "") then "error handling packet" else msg)))
    | (inr _, r) => (inr tt, r)
    end.
Proof.
  unfold handlePacket, handlePacket_try.
  destruct (body packet) as [[b|b|b|]|]; try reflexivity;
    destruct (handleCallData r b) as [[e|[]] r1]; reflexivity.
Qed.

Lemma handlePacket_try_source r packet :
  _source (snd (handlePacket_try r packet)) = _source r.
Proof.
  unfold handlePacket_try.
  destruct (body packet) as [[b|b|b|]|]; try reflexivity.
  apply handleCallData_source.
Qed.

(** The loop of the sink writes nothing to the outgoing queue. *)
Lemma sink_loop_source r source :
  _source (snd (sink_loop r source)) = _source r.
Proof.
  revert r. induction source as [|msg source IH]; intros r; [reflexivity|].
  cbn [sink_loop].
  pose proof (handlePacket_try_source r msg) as Hs.
  destruct (handlePacket_try r msg) as [[e|[]] r1]; cbn [snd] in *.
  - exact Hs.
  - rewrite IH. exact Hs.
Qed.

Lemma close_finally_data r err :
  _rpcDataSource (close_finally r err) = end_ (_rpcDataSource r) err.
Proof. reflexivity. Qed.

Lemma close_finally_source r err :
  _source (close_finally r err) = end_ (_source r) None.
Proof. reflexivity. Qed.

Lemma close_start_data r : _rpcDataSource (close_start r) = _rpcDataSource r.
Proof. reflexivity. Qed.

Lemma close_start_source r :
  _source (close_start r) = push (_source r) (mkPacket (Some (callCancel true))).
Proof. reflexivity. Qed.

Lemma end_rpcDataSource_data r err :
  _rpcDataSource (end_rpcDataSource r err) = end_ (_rpcDataSource r) err.
Proof. reflexivity. Qed.

Lemma end_rpcDataSource_source r err :
  _source (end_rpcDataSource r err) = _source r.
Proof. reflexivity. Qed.

Lemma end_end {A : Type} (p : Pushable A) err err' :
  end_ (end_ p err) err' = end_ p err.
Proof. apply end_again, end_ended. Qed.

Lemma end_open_endErr {A : Type} (p : Pushable A) err :
  ended p = false -> endErr (end_ p err) = err.
Proof. unfold end_. intros ->. reflexivity. Qed.

Lemma push_open {A : Type} (p : Pushable A) v :
  ended p = false ->
  items (push p v) = items p ++ [v] /\ ended (push p v) = false.
Proof. unfold push. intros ->. auto. Qed.

Ltac sink_steps :=
  repeat first
    [ rewrite close_finally_data | rewrite close_finally_source
    | rewrite close_start_data | rewrite close_start_source
    | rewrite end_rpcDataSource_data | rewrite end_rpcDataSource_source
    | rewrite end_end | rewrite end_ended | rewrite end_keeps_items ].



End CommonRPC_more.

(* ================================================================== *)
(** ** The tunnel: further results *)

Section Tunnel_more.
Import rpcstream.

Lemma Read_recv_error {S : Type} `{RpcStream S} fuel
    (r : RpcStreamReadWriter S) (p : bytes) e s' :
  p <> [] -> buf r = [] -> Recv (stream r) = (inl e, s') ->
  Read (Datatypes.S fuel) r p = Some ((p, 0, Some e), mkRpcStreamReadWriter s' []).
Proof.
  intros Hp Hb Hrecv. unfold Read. cbn [Read_loop].
  rewrite bool_decide_eq_false_2 by (destruct p; [congruence|discriminate]).
  rewrite Hb. cbn. rewrite Hrecv. rewrite ?Hb. reflexivity.
Qed.

Lemma Read_skip {S : Type} `{RpcStream S} fuel
    (r : RpcStreamReadWriter S) (p : bytes) pkt s' :
  p <> [] -> buf r = [] -> Recv (stream r) = (inr pkt, s') ->
  GetError (GetAck pkt) = "" -> GetData pkt = [] ->
  Read (Datatypes.S fuel) r p = Read fuel (mkRpcStreamReadWriter s' []) p.
Proof.
  intros Hp Hb Hrecv Hack Hd. unfold Read. cbn [Read_loop].
  rewrite bool_decide_eq_false_2 by (destruct p; [congruence|discriminate]).
  rewrite Hb. cbn. rewrite Hrecv, Hack, Hd. rewrite ?Hb. reflexivity.
Qed.

Lemma Read_ack_error {S : Type} `{RpcStream S} fuel
    (r : RpcStreamReadWriter S) (p : bytes) pkt s' :
  p <> [] -> buf r = [] -> Recv (stream r) = (inr pkt, s') ->
  GetError (GetAck pkt) <> "" ->
  Read (Datatypes.S fuel) r p =
    Some ((p, 0, Some (errors_New (GetError (GetAck pkt)))),
          mkRpcStreamReadWriter s' []).
Proof.
  intros Hp Hb Hrecv Hack. unfold Read. cbn [Read_loop].
  rewrite bool_decide_eq_false_2 by (destruct p; [congruence|discriminate]).
  rewrite Hb. cbn. rewrite Hrecv, (bool_decide_eq_false_2 _ Hack). cbn.
  rewrite ?Hb. reflexivity.
Qed.

(** The step behind the byte-stream view: one [Read] on a clean script. *)
Lemma Read_pending_step (l : list (error + RpcStreamPacket)) :
  forall (r : RpcStreamReadWriter ScriptStream) (p : bytes),
    incoming (stream r) = l -> clean l -> p <> [] ->
    exists n err r',
      Read (Datatypes.S (Datatypes.S (length l))) r p =
        Some ((take n (pending r) ++ drop n p, n, err), r')
      /\ n <= Nat.min (length p) (length (pending r))
      /\ pending r' = drop n (pending r)
      /\ clean (incoming (stream r'))
      /\ length (incoming (stream r')) <= length l
      /\ (pending r <> [] -> 1 <= n /\ err = None)
      /\ (pending r = [] -> n = 0 /\ err = Some io_EOF).
Proof.
  induction l as [|x l IH]; intros r p Hl Hclean Hp.
  - destruct (buf r) as [|b0 bs] eqn:Hb.
    + exists 0, (Some io_EOF), (mkRpcStreamReadWriter (stream r) []).
      assert (Hpe : pending r = []) by (unfold pending; rewrite Hb, Hl; reflexivity).
      rewrite (Read_recv_error _ r p io_EOF (stream r)); try assumption;
        [|cbn; unfold Script_Recv; rewrite Hl; reflexivity].
      rewrite Hpe. cbn [take drop app].
      split; [reflexivity|]. split; [cbn; lia|].
      split; [unfold pending; cbn [buf stream]; rewrite Hl; reflexivity|].
      split; [cbn [stream]; rewrite Hl; constructor|].
      split; [cbn [stream]; rewrite Hl; cbn; lia|].
      split; [congruence|auto].
    + assert (Hbne : buf r <> []) by (rewrite Hb; discriminate).
      pose proof (Read_buffered 0 r p Hp Hbne) as Hr. cbn zeta in Hr.
      set (k := Nat.min (length p) (length (buf r))) in *.
      assert (Hk : 1 <= k <= length (buf r) /\ k <= length p).
      { subst k. rewrite Hb. destruct p; [congruence|]. simpl. lia. }
      assert (Hpe : pending r = buf r)
        by (unfold pending; rewrite Hl; cbn; apply app_nil_r).
      exists k, None, (mkRpcStreamReadWriter (stream r) (drop k (buf r))).
      rewrite Hpe. cbn [length].
      split; [exact Hr|]. split; [lia|].
      split; [unfold pending; cbn [buf stream]; rewrite Hl; cbn; apply app_nil_r|].
      split; [cbn [stream]; rewrite Hl; constructor|].
      split; [cbn [stream]; rewrite Hl; cbn; lia|].
      split; [intros _; split; [lia|reflexivity]|congruence].
  - inversion Hclean as [|? ? (pkt & -> & Hack) Hrest]; subst.
    destruct (buf r) as [|b0 bs] eqn:Hb.
    + assert (Hrecv : Recv (stream r) =
                (inr pkt, mkScriptStream l (sendErr (stream r)) (sent (stream r))
                                         (closes (stream r)))).
      { cbn. unfold Script_Recv. rewrite Hl. reflexivity. }
      set (s' := mkScriptStream l (sendErr (stream r)) (sent (stream r))
                                (closes (stream r))) in *.
      assert (Hpe : pending r = GetData pkt ++ concat (map payload_of l)).
      { unfold pending. rewrite Hb, Hl. reflexivity. }
      destruct (GetData pkt) as [|d0 dd] eqn:Hd.
      * cbn [length]. rewrite (Read_skip _ r p pkt s'); try assumption.
        destruct (IH (mkRpcStreamReadWriter s' []) p eq_refl Hrest Hp)
          as (n & err & r' & Hr & Hn & Hpend & Hcl & Hlen & Hne & He).
        assert (Hpeq : pending (mkRpcStreamReadWriter s' []) = pending r).
        { rewrite Hpe. reflexivity. }
        rewrite Hpeq in *.
        exists n, err, r'.
        split; [exact Hr|]. split; [exact Hn|]. split; [exact Hpend|].
        split; [exact Hcl|]. split; [lia|]. split; assumption.
      * assert (Hdne : GetData pkt <> []) by (rewrite Hd; discriminate).
        pose proof (Read_data (Datatypes.S (length l)) r p pkt s' Hp Hb Hrecv Hack Hdne) as Hr.
        cbn zeta in Hr. cbn [length].
        set (k := Nat.min (length p) (length (GetData pkt))) in *.
        assert (Hk : 1 <= k <= length (GetData pkt) /\ k <= length p).
        { subst k. rewrite Hd. destruct p; [congruence|]. simpl. lia. }
        exists k, None, (mkRpcStreamReadWriter s' (drop k (GetData pkt))).
        rewrite Hpe, <- Hd.
        rewrite take_app_le by lia. rewrite drop_app_le by lia.
        split; [exact Hr|]. split; [rewrite length_app; lia|].
        split; [reflexivity|]. split; [exact Hrest|].
        split; [cbn; lia|].
        split; [intros _; split; [lia|reflexivity]|].
        rewrite Hd. discriminate.
    + assert (Hbne : buf r <> []) by (rewrite Hb; discriminate).
      pose proof (Read_buffered (Datatypes.S (length l)) r p Hp Hbne) as Hr.
      cbn zeta in Hr. cbn [length].
      set (k := Nat.min (length p) (length (buf r))) in *.
      assert (Hk : 1 <= k <= length (buf r) /\ k <= length p).
      { subst k. rewrite Hb. destruct p; [congruence|]. simpl. lia. }
      exists k, None, (mkRpcStreamReadWriter (stream r) (drop k (buf r))).
      assert (Hpe : pending r = buf r ++ concat (map payload_of (inr pkt :: l))).
      { unfold pending. rewrite Hl. reflexivity. }
      rewrite Hpe. rewrite take_app_le by lia.
      split; [exact Hr|].
      split; [rewrite length_app; lia|].
      split; [unfold pending; cbn [buf stream]; rewrite Hl, drop_app_le by lia;
              reflexivity|].
      split; [cbn [stream]; rewrite Hl; exact Hclean|].
      split; [cbn [stream]; rewrite Hl; cbn; lia|].
      split; [intros _; split; [lia|reflexivity]|].
      rewrite Hb. discriminate.
Qed.

(** X21. Over a script of packets none of which is an Ack with an error, the
    read/writer is a byte stream: a [Read] into a non-empty slice delivers a
    prefix of the bytes pending (the buffer followed by the payloads to come),
    at least one byte when any is pending and [io.EOF] with no byte when none
    is, and leaves the rest pending. *)
Theorem Read_delivers_prefix_of_pending
    (r : RpcStreamReadWriter ScriptStream) (p : bytes) :
  clean (incoming (stream r)) -> p <> [] ->
  exists n err r',
    Read (Datatypes.S (Datatypes.S (length (incoming (stream r))))) r p =
      Some ((take n (pending r) ++ drop n p, n, err), r')
    /\ n <= Nat.min (length p) (length (pending r))
    /\ pending r' = drop n (pending r)
    /\ clean (incoming (stream r'))
    /\ (pending r <> [] -> 1 <= n /\ err = None)
    /\ (pending r = [] -> n = 0 /\ err = Some io_EOF).
Proof.
  intros Hclean Hp.
  destruct (Read_pending_step _ r p eq_refl Hclean Hp)
    as (n & err & r' & Hr & Hn & Hpend & Hcl & _ & Hne & He).
  exists n, err, r'. repeat split; try assumption; try (apply Hne; assumption);
    apply He; assumption.
Qed.

Lemma Read_delivers_prefix_of_pending_witness :
  exists n err r',
    Read 3 (mkRpcStreamReadWriter
              (mkScriptStream [inr (data_packet ["003"%byte; "004"%byte])] None [] 0)
              ["001"%byte; "002"%byte])
           ["000"%byte; "000"%byte; "000"%byte] =
      Some ((take n ["001"%byte; "002"%byte; "003"%byte; "004"%byte]
               ++ drop n ["000"%byte; "000"%byte; "000"%byte], n, err), r')
    /\ n <= Nat.min 3 4
    /\ pending r' = drop n ["001"%byte; "002"%byte; "003"%byte; "004"%byte]
    /\ clean (incoming (stream r'))
    /\ (["001"%byte; "002"%byte; "003"%byte; "004"%byte] <> [] ->
        1 <= n /\ err = None)
    /\ (["001"%byte; "002"%byte; "003"%byte; "004"%byte] = [] ->
        n = 0 /\ err = Some io_EOF).
Proof.
  apply (Read_delivers_prefix_of_pending
           (mkRpcStreamReadWriter
              (mkScriptStream [inr (data_packet ["003"%byte; "004"%byte])] None [] 0)
              ["001"%byte; "002"%byte])
           ["000"%byte; "000"%byte; "000"%byte]).
  - repeat constructor. eexists. split; reflexivity.
  - discriminate.
Defined.

Lemma ReadAll_pending (reads size : nat) :
  forall r : RpcStreamReadWriter ScriptStream,
    clean (incoming (stream r)) -> 1 <= size ->
    length (pending r) < reads ->
    ReadAll reads size r = (pending r, Some io_EOF).
Proof.
  induction reads as [|reads IH]; intros r Hclean Hsize Hlen; [lia|].
  assert (Hp : replicate size "000"%byte <> [])
    by (destruct size; [lia|discriminate]).
  destruct (Read_pending_step _ r _ eq_refl Hclean Hp)
    as (n & err & r' & Hr & Hn & Hpend & Hcl & _ & Hne & He).
  cbn [ReadAll]. rewrite Hr.
  assert (Htake : take n (take n (pending r) ++ drop n (replicate size "000"%byte))
                  = take n (pending r)).
  { rewrite take_app_le by (rewrite length_take; lia).
    apply take_ge. rewrite length_take. lia. }
  rewrite Htake.
  destruct (pending r) as [|b0 bs] eqn:Hpe.
  - destruct (He eq_refl) as [-> ->]. reflexivity.
  - destruct Hne as [Hn1 ->]; [discriminate|].
    rewrite IH; try assumption.
    + rewrite Hpend, take_drop. reflexivity.
    + rewrite Hpend, length_drop. lia.
Qed.

(** X22. Read to the end, the tunnel gives back the bytes in order whatever
    the size of the reader's slice: repeated reads over a script of packets
    without Ack error return the buffer followed by all the payloads, and
    then [io.EOF]. *)
Theorem ReadAll_returns_pending (reads size : nat)
    (r : RpcStreamReadWriter ScriptStream) :
  clean (incoming (stream r)) -> 1 <= size ->
  length (pending r) < reads ->
  ReadAll reads size r = (pending r, Some io_EOF).
Proof. apply ReadAll_pending. Qed.

Lemma ReadAll_returns_pending_witness :
  ReadAll 5 3
    (mkRpcStreamReadWriter
       (mkScriptStream [inr (data_packet []);
                        inr (data_packet ["003"%byte; "004"%byte])] None [] 0)
       ["001"%byte; "002"%byte])
  = (pending
       (mkRpcStreamReadWriter
          (mkScriptStream [inr (data_packet []);
                           inr (data_packet ["003"%byte; "004"%byte])] None [] 0)
          ["001"%byte; "002"%byte]),
     Some io_EOF).
Proof.
  apply (ReadAll_returns_pending 5 3).
  - repeat constructor; eexists; split; reflexivity.
  - lia.
  - simpl. lia.
Defined.

Lemma Write_script_sent (r : RpcStreamReadWriter ScriptStream) (p : bytes) :
  sendErr (stream r) = None ->
  sent (stream (snd (Write r p))) =
    sent (stream r) ++ (if bool_decide (length p = 0) then [] else [data_packet p])
  /\ sendErr (stream (snd (Write r p))) = None
  /\ fst (Write r p) = (length p, None).
Proof.
  intros Hs. unfold Write.
  destruct (bool_decide_reflect (length p = 0)) as [Hp|Hp].
  - cbn. rewrite app_nil_r, Hp. auto.
  - cbn. unfold Script_Send. rewrite Hs. cbn. auto.
Qed.

Lemma WriteAll_sent (ps : list bytes) :
  forall r : RpcStreamReadWriter ScriptStream,
    sendErr (stream r) = None ->
    sent (stream (WriteAll r ps)) =
      sent (stream r) ++
      map data_packet
          (List.filter (fun p => negb (bool_decide (length p = 0))) ps).
Proof.
  induction ps as [|p ps IH]; intros r Hs.
  - cbn. rewrite app_nil_r. reflexivity.
  - unfold WriteAll. cbn [fold_left]. fold (WriteAll (snd (Write r p)) ps).
    destruct (Write_script_sent r p Hs) as (Hsent & Hs' & _).
    rewrite (IH _ Hs'), Hsent. cbn [List.filter].
    destruct (bool_decide (length p = 0)); cbn [negb map].
    + rewrite app_nil_r. reflexivity.
    + rewrite <- app_assoc. reflexivity.
Qed.

Lemma concat_filter_nonempty (ps : list bytes) :
  concat (List.filter (fun p => negb (bool_decide (length p = 0))) ps) = concat ps.
Proof.
  induction ps as [|p ps IH]; [reflexivity|]. cbn [List.filter].
  destruct (bool_decide_reflect (length p = 0)) as [Hp|Hp]; cbn [negb concat].
  - rewrite (nil_length_inv _ Hp). exact IH.
  - rewrite IH. reflexivity.
Qed.

Lemma clean_data_packets (ds : list bytes) :
  clean (map inr (map data_packet ds)) /\
  concat (map payload_of (map inr (map data_packet ds))) = concat ds.
Proof.
  induction ds as [|d ds [IHc IHp]]; [split; [constructor|reflexivity]|].
  split.
  - constructor; [|exact IHc]. eexists. split; reflexivity.
  - cbn. cbn in IHp. rewrite IHp. reflexivity.
Qed.

(** X23. Tunnel framing, end to end: the bytes written through [Write], in
    slices of any sizes, empty ones included, are the bytes a reader of the
    frames sent gets back through [Read], in order and complete, whatever the
    size of its own slice; then it reads [io.EOF]. *)
Theorem tunnel_bytes_round_trip (ps : list bytes) (reads size : nat) :
  1 <= size -> length (concat ps) < reads ->
  ReadAll reads size
    (NewRpcStreamReadWriter
       (mkScriptStream
          (map inr (sent (stream
             (WriteAll (NewRpcStreamReadWriter (mkScriptStream [] None [] 0)) ps))))
          None [] 0))
  = (concat ps, Some io_EOF).
Proof.
  intros Hsize Hlen.
  rewrite WriteAll_sent by reflexivity. cbn [sent stream NewRpcStreamReadWriter app].
  set (ds := List.filter (fun p => negb (bool_decide (length p = 0))) ps).
  destruct (clean_data_packets ds) as [Hclean Hcat].
  assert (Hpe : pending (NewRpcStreamReadWriter
                  (mkScriptStream (map inr (map data_packet ds)) None [] 0))
                = concat ps).
  { unfold pending. cbn [buf stream incoming NewRpcStreamReadWriter app].
    rewrite Hcat. apply concat_filter_nonempty. }
  rewrite ReadAll_pending; [rewrite Hpe; reflexivity|exact Hclean|exact Hsize|].
  rewrite Hpe. exact Hlen.
Qed.

Lemma tunnel_bytes_round_trip_witness :
  ReadAll 4 2
    (NewRpcStreamReadWriter
       (mkScriptStream
          (map inr (sent (stream
             (WriteAll (NewRpcStreamReadWriter (mkScriptStream [] None [] 0))
                       [["001"%byte]; []; ["002"%byte; "003"%byte]]))))
          None [] 0))
  = (concat [["001"%byte]; []; ["002"%byte; "003"%byte]], Some io_EOF).
Proof.
  apply (tunnel_bytes_round_trip [["001"%byte]; []; ["002"%byte; "003"%byte]] 4 2).
  - lia.
  - simpl. lia.
Defined.

(** X24. [Write] never splits, merges or pads: writing slices one after the
    other on a stream that accepts them sends one Data frame per non-empty
    slice, holding that slice, in order, and nothing for an empty slice. *)
Theorem WriteAll_frames (ps : list bytes) (r : RpcStreamReadWriter ScriptStream) :
  sendErr (stream r) = None ->
  sent (stream (WriteAll r ps)) =
    sent (stream r) ++
    map data_packet (List.filter (fun p => negb (bool_decide (length p = 0))) ps).
Proof. apply WriteAll_sent. Qed.

Lemma WriteAll_frames_witness :
  sent (stream (WriteAll (NewRpcStreamReadWriter (mkScriptStream [] None [] 0))
                         [["001"%byte]; []; ["002"%byte; "003"%byte]]))
  = sent (stream (NewRpcStreamReadWriter (mkScriptStream [] None [] 0))) ++
    map data_packet
      (List.filter (fun p => negb (bool_decide (length p = 0)))
                   [["001"%byte]; []; ["002"%byte; "003"%byte]]).
Proof.
  apply (WriteAll_frames [["001"%byte]; []; ["002"%byte; "003"%byte]]
           (NewRpcStreamReadWriter (mkScriptStream [] None [] 0))).
  reflexivity.
Defined.

(** X25. [OpenRpcStream] never leaks the stream it opened and never returns
    half a result: it returns either a read/writer with an empty buffer over
    the stream, not closed, and no error, or no read/writer and an error
    after exactly one [Close] of the stream. *)
Theorem OpenRpcStream_closes_on_failure (s : ScriptStream)
    (componentID : string) (waitAck : bool) :
  match OpenRpcStream (inr s) componentID waitAck with
  | ((Some rw, None), Some s') =>
      stream rw = s' /\ buf rw = [] /\ closes s' = closes s
  | ((None, Some _), Some s') => closes s' = Datatypes.S (closes s)
  | _ => False
  end.
Proof.
  unfold OpenRpcStream. cbn [Send Recv Close ScriptStream_RpcStream].
  unfold Script_Send, Script_Close.
  destruct (sendErr s) as [e|] eqn:Hs; [reflexivity|].
  destruct waitAck; [|cbn; auto].
  unfold Script_Recv. cbn [incoming].
  destruct (incoming s) as [|[e|pkt] rest]; cbn [closes]; try reflexivity.
  destruct (Body pkt) as [[i|a|d]|]; try reflexivity.
  destruct (negb (bool_decide (GetError a = ""))); cbn; auto.
Qed.

(** X26. On a stream that accepts the send, [OpenRpcStream] sends one packet,
    the Init with the component id, and nothing else; it takes one packet
    off the stream when it waits for the Ack and none when it does not. *)
Theorem OpenRpcStream_traffic (s : ScriptStream)
    (componentID : string) (waitAck : bool) :
  sendErr s = None ->
  exists res s',
    OpenRpcStream (inr s) componentID waitAck = (res, Some s')
    /\ sent s' = sent s ++ [init_packet componentID]
    /\ incoming s' = if waitAck then tail (incoming s) else incoming s.
Proof.
  intros Hs. unfold OpenRpcStream. cbn [Send Recv Close ScriptStream_RpcStream].
  unfold Script_Send, Script_Close. rewrite Hs.
  destruct waitAck; [|eexists _, _; cbn; auto].
  unfold Script_Recv. cbn [incoming].
  destruct (incoming s) as [|[e|pkt] rest]; try (eexists _, _; cbn; auto; fail).
  destruct (Body pkt) as [[i|a|d]|]; try (eexists _, _; cbn; auto; fail).
  destruct (negb (bool_decide (GetError a = ""))); eexists _, _; cbn; auto.
Qed.

Lemma OpenRpcStream_traffic_witness :
  exists res s',
    OpenRpcStream (inr (mkScriptStream [inr (ack_packet "")] None [] 0)) "echo" true
      = (res, Some s')
    /\ sent s' = sent (mkScriptStream [inr (ack_packet "")] None [] 0)
                 ++ [init_packet "echo"]
    /\ incoming s' = if true
                     then tail (incoming (mkScriptStream [inr (ack_packet "")] None [] 0))
                     else incoming (mkScriptStream [inr (ack_packet "")] None [] 0).
Proof.
  apply (OpenRpcStream_traffic (mkScriptStream [inr (ack_packet "")] None [] 0)
           "echo" true).
  reflexivity.
Defined.

End Tunnel_more.

Section Tunnel_handshake.
Import rpcstream.

(** X27. The two ends of the handshake fit.  The acceptor, handed the Init the
    opener sends, answers a refusal (an error of the getter, or no mux) with
    one Ack carrying the text of the error and returns that error; the
    opener, handed that Ack, fails with "remote: " and the text and closes
    its stream, unless the text is empty, in which case it takes the Ack for
    an acceptance. *)
Theorem tunnel_handshake `{SentinelText} {M R : Type}
    (getter : string -> option M * option R * option error)
    (serve : option M -> RpcStreamReadWriter ScriptStream -> option error * ScriptStream)
    (cid : string) (mux : option M) (rel : option R) (err : option error) :
  cid <> "" -> getter cid = (mux, rel, err) ->
  let text :=
    match err with
    | Some e => error_Error e
    | None => if is_nil mux then "no server for that component" else ""
    end in
  (is_nil err = false \/ is_nil mux = true ->
     fst (HandleRpcStream getter serve
            (mkScriptStream [inr (init_packet cid)] None [] 0))
     = (Some (default (errors_New "no server for that component") err),
        mkScriptStream [] None [ack_packet text] 0))
  /\ OpenRpcStream (inr (mkScriptStream [inr (ack_packet text)] None [] 0)) cid true
     = if bool_decide (text = "")
       then ((Some (mkRpcStreamReadWriter
                      (mkScriptStream [] None [init_packet cid] 0) []), None),
             Some (mkScriptStream [] None [init_packet cid] 0))
       else ((None, Some (errors_New ("remote: " +:+ text))),
             Some (mkScriptStream [] None [init_packet cid] 1)).
Proof.
  intros Hcid Hg text. split.
  - intros Hrefuse. unfold HandleRpcStream.
    cbn [Recv ScriptStream_RpcStream Script_Recv incoming Body init_packet
         ComponentId].
    rewrite (bool_decide_eq_false_2 _ Hcid), Hg.
    destruct err as [e|], mux as [m|]; cbn in Hrefuse;
      try (destruct Hrefuse; discriminate); reflexivity.
  - unfold OpenRpcStream.
    cbn [Send Recv Close ScriptStream_RpcStream Script_Send Script_Recv
         sendErr incoming Body ack_packet GetError from_option Error].
    destruct (bool_decide (text = "")); reflexivity.
Qed.

Lemma tunnel_handshake_witness :
  (is_nil (@None error) = false \/ is_nil (@None unit) = true ->
     fst (HandleRpcStream (H0 := samples.texts) (M := unit) (R := unit)
            (fun _ => (None, None, None)) (fun _ rw => (None, stream rw))
            (mkScriptStream [inr (init_packet "absent")] None [] 0))
     = (Some (default (errors_New "no server for that component") None),
        mkScriptStream [] None [ack_packet "no server for that component"] 0))
  /\ OpenRpcStream
       (inr (mkScriptStream [inr (ack_packet "no server for that component")]
                            None [] 0)) "absent" true
     = if bool_decide ("no server for that component" = "")
       then ((Some (mkRpcStreamReadWriter
                      (mkScriptStream [] None [init_packet "absent"] 0) []), None),
             Some (mkScriptStream [] None [init_packet "absent"] 0))
       else ((None, Some (errors_New ("remote: " +:+ "no server for that component"))),
             Some (mkScriptStream [] None [init_packet "absent"] 1)).
Proof.
  apply (tunnel_handshake (H := samples.texts) (M := unit) (R := unit)
           (fun _ => (None, None, None)) (fun _ rw => (None, stream rw))
           "absent" None None None).
  - discriminate.
  - reflexivity.
Defined.

(** X28. When the getter finds a mux and no error, [HandleRpcStream] sends an
    Ack with an empty error and, if that send succeeds, runs the nested
    session on a fresh read/writer over the stream and returns its result;
    if the send fails it returns the send's error without running the
    session.  Either way the release function of the getter runs on return. *)
Theorem HandleRpcStream_serves {S : Type} `{RpcStream S} `{SentinelText}
    {M R : Type}
    (getter : string -> option M * option R * option error)
    (serve : option M -> RpcStreamReadWriter S -> option error * S)
    (s0 s1 s2 : S) (cid : string) (m : M) (rel : option R)
    (sendErr : option error) :
  cid <> "" ->
  Recv s0 = (inr (init_packet cid), s1) ->
  getter cid = (Some m, rel, None) ->
  Send (ack_packet "") s1 = (sendErr, s2) ->
  HandleRpcStream getter serve s0 =
    (match sendErr with
     | Some e => (Some e, s2)
     | None => serve (Some m) (mkRpcStreamReadWriter s2 [])
     end,
     match rel with
     | Some r => [r]
     | None => []
     end).
Proof.
  intros Hcid Hrecv Hg Hsend. unfold HandleRpcStream.
  rewrite Hrecv. cbn [Body init_packet ComponentId].
  rewrite (bool_decide_eq_false_2 _ Hcid), Hg. cbn [is_nil andb].
  rewrite Hsend. destruct sendErr, rel; reflexivity.
Qed.

Lemma HandleRpcStream_serves_witness :
  HandleRpcStream (H0 := samples.texts) (M := unit) (R := string)
    (fun _ => (Some tt, Some "release", None))
    (fun _ rw => (Some io_EOF, stream rw))
    (mkScriptStream [inr (init_packet "echo")] None [] 0)
  = ((Some io_EOF, mkScriptStream [] None [ack_packet ""] 0), ["release"]).
Proof.
  exact (HandleRpcStream_serves (H0 := samples.texts) (M := unit) (R := string)
           (fun _ => (Some tt, Some "release", None))
           (fun _ rw => (Some io_EOF, stream rw))
           (mkScriptStream [inr (init_packet "echo")] None [] 0)
           (mkScriptStream [] None [] 0)
           (mkScriptStream [] None [ack_packet ""] 0)
           "echo" tt (Some "release") None
           ltac:(discriminate) eq_refl eq_refl eq_refl).
Defined.

End Tunnel_handshake.

(* ================================================================== *)
(** ** The generated stream type names *)

Section Generated_names.
Import gen.

Lemma append_cons c s t : String c s +:+ t = String c (s +:+ t).
Proof. reflexivity. Qed.

Lemma append_nil t : "" +:+ t = t.
Proof. reflexivity. Qed.

Lemma length_append s t :
  String.length (s +:+ t) = String.length s + String.length t.
Proof.
  induction s as [|c s IH]; [reflexivity|].
  rewrite append_cons. cbn [String.length]. rewrite IH. reflexivity.
Qed.

Lemma append_inv_r s s' t : s +:+ t = s' +:+ t -> s = s'.
Proof.
  revert s'. induction s as [|c s IH]; intros [|c' s'] Heq.
  - reflexivity.
  - apply (f_equal String.length) in Heq.
    rewrite append_nil, append_cons in Heq. cbn [String.length] in Heq.
    rewrite length_append in Heq. lia.
  - apply (f_equal String.length) in Heq.
    rewrite append_nil, append_cons in Heq. cbn [String.length] in Heq.
    rewrite length_append in Heq. lia.
  - rewrite !append_cons in Heq. injection Heq as -> Heq.
    f_equal. apply IH, Heq.
Qed.

Lemma ReplaceAll_underscore_cons c s :
  ReplaceAll_underscore (String c s) =
    if Ascii.eqb c "_"%char
    then String "_"%char (String "_"%char (ReplaceAll_underscore s))
    else String c (ReplaceAll_underscore s).
Proof. reflexivity. Qed.

(** Doubling the underscores loses nothing. *)
Lemma ReplaceAll_underscore_inj s s' :
  ReplaceAll_underscore s = ReplaceAll_underscore s' -> s = s'.
Proof.
  revert s'. induction s as [|c s IH]; intros [|c' s'];
    rewrite ?ReplaceAll_underscore_cons; cbn [ReplaceAll_underscore].
  - reflexivity.
  - destruct (Ascii.eqb c' "_"%char); discriminate.
  - destruct (Ascii.eqb c "_"%char); discriminate.
  - destruct (Ascii.eqb_spec c "_"%char) as [->|Hc];
      destruct (Ascii.eqb_spec c' "_"%char) as [->|Hc'].
    + intros [= Heq]. f_equal. apply IH, Heq.
    + intros [= Heq _]. congruence.
    + intros [= Heq _]. congruence.
    + intros [= -> Heq]. f_equal. apply IH, Heq.
Qed.

(** A single underscore behind a doubled name marks its end, as long as what
    follows does not begin with an underscore. *)
Lemma separator_found s :
  forall s' u u',
    no_leading_underscore u -> no_leading_underscore u' ->
    ReplaceAll_underscore s +:+ String "_"%char u =
      ReplaceAll_underscore s' +:+ String "_"%char u' ->
    s = s' /\ u = u'.
Proof.
  induction s as [|c s IH]; intros [|c' s'] u u' Hu Hu';
    rewrite ?ReplaceAll_underscore_cons; cbn [ReplaceAll_underscore];
    rewrite ?append_nil.
  - intros [= ->]. auto.
  - destruct (Ascii.eqb_spec c' "_"%char) as [->|Hc'];
      rewrite !append_cons; intros [= Heq]; [|congruence].
    subst u. cbn in Hu. congruence.
  - destruct (Ascii.eqb_spec c "_"%char) as [->|Hc];
      rewrite !append_cons; intros [= Heq]; [|congruence].
    subst u'. cbn in Hu'. congruence.
  - destruct (Ascii.eqb_spec c "_"%char) as [->|Hc];
      destruct (Ascii.eqb_spec c' "_"%char) as [->|Hc'];
      rewrite !append_cons.
    + intros [= Heq]. destruct (IH _ _ _ Hu Hu' Heq) as [-> ->]. auto.
    + intros [= Heq _]. congruence.
    + intros [= Heq _]. congruence.
    + intros [= -> Heq]. destruct (IH _ _ _ Hu Hu' Heq) as [-> ->]. auto.
Qed.

Lemma no_leading_underscore_doubled s t :
  no_leading_underscore s -> no_leading_underscore t ->
  no_leading_underscore (ReplaceAll_underscore s +:+ t).
Proof.
  destruct s as [|c s]; [intros _ Ht; exact Ht|].
  cbn [no_leading_underscore]. intros Hc _.
  rewrite ReplaceAll_underscore_cons.
  destruct (Ascii.eqb_spec c "_"%char); [contradiction|].
  rewrite append_cons. exact Hc.
Qed.

Lemma stream_name_inj (suffix : string) (p n p' n' : string) :
  no_leading_underscore suffix ->
  no_leading_underscore n -> no_leading_underscore n' ->
  ReplaceAll_underscore p +:+ "_" +:+ ReplaceAll_underscore n +:+ suffix =
  ReplaceAll_underscore p' +:+ "_" +:+ ReplaceAll_underscore n' +:+ suffix ->
  p = p' /\ n = n'.
Proof.
  intros Hsuf Hn Hn' Heq.
  change ("_" +:+ ReplaceAll_underscore n +:+ suffix)
    with (String "_"%char (ReplaceAll_underscore n +:+ suffix)) in Heq.
  change ("_" +:+ ReplaceAll_underscore n' +:+ suffix)
    with (String "_"%char (ReplaceAll_underscore n' +:+ suffix)) in Heq.
  apply separator_found in Heq as [-> Heq];
    try (apply no_leading_underscore_doubled; assumption).
  split; [reflexivity|].
  apply ReplaceAll_underscore_inj, (append_inv_r _ _ suffix), Heq.
Qed.

(** X29. The names of the generated stream types do not clash: two methods
    whose Go names do not begin with an underscore get the same client stream
    interface name, or the same client stream implementation name, or the
    same server stream interface or implementation name, only if they have
    the same Go name and their services have the same Go name. *)
Theorem stream_names_injective (m m' : Method) :
  no_leading_underscore (GoName m) -> no_leading_underscore (GoName m') ->
  ClientStreamIface m = ClientStreamIface m' \/
  ClientStreamImpl m = ClientStreamImpl m' \/
  ServerStreamIface m = ServerStreamIface m' \/
  ServerStreamImpl m = ServerStreamImpl m' ->
  Service_GoName (Parent m) = Service_GoName (Parent m') /\ GoName m = GoName m'.
Proof.
  intros Hn Hn'.
  unfold ClientStreamIface, ClientStreamImpl, ServerStreamIface, ServerStreamImpl.
  intros [Heq|[Heq|[Heq|Heq]]];
    rewrite !append_cons, !append_nil in Heq; injection Heq as Heq;
    apply stream_name_inj in Heq; try assumption; cbn; discriminate.
Qed.

Lemma stream_names_injective_witness :
  Service_GoName (Parent (mkMethod (mkService "Echoer") "Echo")) =
  Service_GoName (Parent (mkMethod (mkService "Echoer") "Echo"))
  /\ GoName (mkMethod (mkService "Echoer") "Echo")
     = GoName (mkMethod (mkService "Echoer") "Echo").
Proof.
  apply (stream_names_injective (mkMethod (mkService "Echoer") "Echo")
                                (mkMethod (mkService "Echoer") "Echo")).
  - cbn. discriminate.
  - cbn. discriminate.
  - left. reflexivity.
Defined.

(** Without the condition the names do clash. *)
Example stream_names_clash :
  ClientStreamIface (mkMethod (mkService "A") "_B") =
  ClientStreamIface (mkMethod (mkService "A_") "B").
Proof. reflexivity. Qed.

End Generated_names.

(* ================================================================== *)
(** ** Closed instances for the results on packet sequences *)

Section ServerRPC_runs.
Import srpc.

Lemma at_most_one_invocation_witness :
  invocations
    (HandlePackets samples.sample_Validate (NewServerRPC false)
       [(mkPacket (Some (Packet_CallStart (mkCallStart "echo.Echoer" "Echo" [] false))),
         true);
        (mkPacket (Some (Packet_CallStart (mkCallStart "echo.Echoer" "Echo" [] false))),
         true)])
  <= 1.
Proof.
  apply (at_most_one_invocation samples.sample_Validate false).
  intros b. unfold samples.sample_Validate. cbn [Body].
  destruct (bool_decide_reflect (RpcService b = "")) as [Hs|Hs];
    destruct (bool_decide_reflect (RpcMethod b = "")) as [Hm|Hm];
    cbn [andb]; try discriminate; auto.
Defined.

End ServerRPC_runs.
